(** * ASRS v1.1 questionnaire scoring (app.py)

    A shallow embedding of the application: the scoring function
    [calculer_score_asrs], the form and the submission branch of
    [show_questionnaire], the connection to the spreadsheet service
    ([connect_to_gsheet], [save_to_gsheet]), the consent form and [main],
    with the properties of the natural-language specification stated over
    them, followed by further properties of the code.

    Python integers are [Z]; Python floats are binary64 numbers ([float]);
    exceptions are an explicit error result. A Python dictionary that is only
    read by key is a finite map with string keys ([gmap string _]); the two
    dictionaries whose keys and values are written out in order, [responses]
    and [save_data], keep their items in insertion order ([odict]). *)

From Stdlib Require Import ZArith Lia PrimFloat FloatOps SpecFloat.
From stdpp Require Import gmap strings list fin_maps pretty.

Local Open Scope Z_scope.

(** ** Python values and exceptions *)

(** The values a form widget stores in the [responses] dictionary:
    [st.radio] yields an index of [range(len(echelle))] (or [None] when there
    is no option), [st.slider] an integer, the text widgets a string. *)
Inductive pyval : Type :=
  | PNone
  | PInt (z : Z)
  | PStr (s : string).

Inductive exn : Type :=
  | TypeError
  | IndexError
  | ZeroDivisionError
  | OverflowError
  | Exception (msg : string).   (* raised by Streamlit, gspread or oauth2client *)

Inductive result (A : Type) : Type :=
  | Ok (a : A)
  | Raise (e : exn).
Arguments Ok {A} a.
Arguments Raise {A} e.

#[global] Instance result_ret : MRet result := @Ok.
#[global] Instance result_bind : MBind result := λ A B f m,
  match m with
  | Ok a => f a
  | Raise e => Raise e
  end.

#[global] Instance result_fmap : FMap result := λ A B f m,
  match m with
  | Ok a => Ok (f a)
  | Raise e => Raise e
  end.

(** [for x in l: s = body(s, x)], stopping at the first exception. *)
Fixpoint for_each {S : Type} (body : S → nat → result S) (l : list nat) (s : S)
  : result S :=
  match l with
  | [] => Ok s
  | i :: l' => s' ← body s i; for_each body l' s'
  end.

(** [range(a, b)] *)
Definition range (a b : nat) : list nat := seq a (b - a).

(** [d.get(k, dflt)] *)
Definition dict_get {V} (d : gmap string V) (k : string) (dflt : V) : V :=
  default dflt (d !! k).

(** A dictionary with its items in insertion order, each key once. *)
Definition odict (V : Type) : Type := list (string * V).

(** [d[k] = v]: the value of an existing key is replaced where it stands, a
    new key goes to the end. *)
Fixpoint odict_set {V} (k : string) (v : V) (d : odict V) : odict V :=
  match d with
  | [] => [(k, v)]
  | (k', v') :: d' =>
      if decide (k' = k) then (k, v) :: d' else (k', v') :: odict_set k v d'
  end.

(** [d.update(other)] *)
Definition odict_update {V} (d other : odict V) : odict V :=
  foldl (λ d kv, odict_set kv.1 kv.2 d) d other.

(** [list(d.keys())] and [list(d.values())] *)
Definition odict_keys {V} (d : odict V) : list string := d.*1.
Definition odict_values {V} (d : odict V) : list V := d.*2.

(** The dictionary as a finite map, for [d.get(k, dflt)], [d[k]] and
    [k in d]. *)
Definition contenu {V} (d : odict V) : gmap string V := list_to_map d.

(** [l[i]] for a non-negative index [i]. *)
Definition list_index {A} (l : list A) (i : nat) : result A :=
  match l !! i with
  | Some x => Ok x
  | None => Raise IndexError
  end.

(** [f'Q{n}'] *)
Definition Q (n : nat) : string := "Q" +:+ pretty n.

(** ** Configuration (config.json) *)

(** The keys of the configuration that the two functions read. The key
    [seuils_partie_a] is read with [config.get] and may be absent; the others
    are read with [config[...]]. *)
Record config : Type := Config {
  seuils_partie_a : option (list Z);
  echelle_likert : list string;
  questionnaire_pre : list string;          (* ['questionnaire_pre']['questions'] *)
  questionnaire_post : list string;         (* ['questionnaire_post']['questions'] *)
  questionnaire_retrospectif : list string  (* ['questionnaire_retrospectif']['questions'] *)
}.

(** ** The score calculator *)

Record scores : Type := Scores {
  score_total : Z;
  score_max : Z;
  score_partie_a : Z;
  score_partie_b : Z;
  items_positifs_a : Z;
  items_positifs_b : Z;
  screening_positif : bool
}.

(** [config.get('seuils_partie_a', [2, 3, 2, 2, 3, 3])] *)
Definition seuils_a (cfg : config) : list Z :=
  default [2; 3; 2; 2; 3; 3] (seuils_partie_a cfg).

(** Body of the loop over [range(6)]:
<<
    score_i = responses.get(f'Q{i+1}', 0)
    score_partie_a += score_i
    if score_i >= seuils_a[i]:
        items_positifs_a += 1
>>
    The accumulators are integers, so [+=] raises [TypeError] on [None] and
    on a string. *)
Definition boucle_a (responses : gmap string pyval) (seuils : list Z)
    (acc : Z * Z) (i : nat) : result (Z * Z) :=
  let '(score_partie_a, items_positifs_a) := acc in
  match dict_get responses (Q (i + 1)) (PInt 0) with
  | PInt score_i =>
      let score_partie_a := score_partie_a + score_i in
      seuil ← list_index seuils i;
      if bool_decide (score_i >= seuil)
      then Ok (score_partie_a, items_positifs_a + 1)
      else Ok (score_partie_a, items_positifs_a)
  | _ => Raise TypeError
  end.

(** Body of the loop over [range(6, 18)], with the fixed threshold 3. *)
Definition boucle_b (responses : gmap string pyval)
    (acc : Z * Z) (i : nat) : result (Z * Z) :=
  let '(score_partie_b, items_positifs_b) := acc in
  match dict_get responses (Q (i + 1)) (PInt 0) with
  | PInt score_i =>
      let score_partie_b := score_partie_b + score_i in
      if bool_decide (score_i >= 3)
      then Ok (score_partie_b, items_positifs_b + 1)
      else Ok (score_partie_b, items_positifs_b)
  | _ => Raise TypeError
  end.

Definition calculer_score_asrs (responses : gmap string pyval) (cfg : config)
  : result scores :=
  let seuils := seuils_a cfg in
  '(score_partie_a, items_positifs_a) ←
     for_each (boucle_a responses seuils) (range 0 6) (0, 0);
  '(score_partie_b, items_positifs_b) ←
     for_each (boucle_b responses) (range 6 18) (0, 0);
  let score_total := score_partie_a + score_partie_b in
  let score_max := 72 in
  let screening_positif := bool_decide (items_positifs_a >= 4) in
  Ok {| score_total := score_total;
        score_max := score_max;
        score_partie_a := score_partie_a;
        score_partie_b := score_partie_b;
        items_positifs_a := items_positifs_a;
        items_positifs_b := items_positifs_b;
        screening_positif := screening_positif |}.

(** ** The percentage [round((score_total / score_max) * 100, 1)] *)

Definition Z2SF (z : Z) : spec_float :=
  match z with
  | Z0 => S754_zero false
  | Zpos p => S754_finite false p 0
  | Zneg p => S754_finite true p 0
  end.

(** [a / b] on two integers: the exact quotient rounded to the nearest
    binary64 number, ties to even. It raises [OverflowError] when the
    quotient rounds beyond the largest float, that is from
    [2^1024 - 2^970] on in absolute value. *)
Definition int_truediv (a b : Z) : result float :=
  if bool_decide (b = 0) then Raise ZeroDivisionError
  else if bool_decide ((2 ^ 1024 - 2 ^ 970) * Z.abs b ≤ Z.abs a)
  then Raise OverflowError
  else Ok (SF2Prim (SFdiv prec emax (Z2SF a) (Z2SF b))).

(** [num / den] rounded to the nearest integer, ties to even
    ([0 ≤ num], [0 < den]). *)
Definition round_half_even (num den : Z) : Z :=
  let q := num / den in
  let r := num mod den in
  match 2 * r ?= den with
  | Lt => q
  | Gt => q + 1
  | Eq => if Z.even q then q else q + 1
  end.

(** [round(x, 1)] on a float, as CPython computes it: the exact value of
    [x] is rounded to one decimal, ties to even, and the decimal is converted
    back to the nearest float; zeros, infinities and NaN are returned as they
    are. *)
Definition py_round1 (x : float) : float :=
  match Prim2SF x with
  | S754_finite s m e =>
      let dixiemes :=
        if bool_decide (0 ≤ e) then 10 * Zpos m * 2 ^ e
        else round_half_even (10 * Zpos m) (2 ^ (- e)) in
      match dixiemes with
      | Zpos n =>
          SF2Prim (SFdiv prec emax (S754_finite s n 0) (S754_finite false 10 0))
      | _ => SF2Prim (S754_zero s)
      end
  | _ => x
  end.

(** [round((scores['score_total'] / scores['score_max']) * 100, 1)] *)
Definition score_pourcentage (sc : scores) : result float :=
  q ← int_truediv (score_total sc) (score_max sc);
  Ok (py_round1 (PrimFloat.mul q 100%float)).

(** ** What the application shows and what it saves *)

(** The values of the saved record [save_data]. *)
Inductive cell : Type :=
  | CVal (v : pyval)
  | CBool (b : bool)
  | CFloat (f : float).

#[global] Instance cell_inhabited : Inhabited cell := populate (CVal PNone).

(** An f-string: literal text and interpolated values. *)
Inductive frag : Type :=
  | Lit (s : string)
  | Val (c : cell)
  | StrExn (e : exn).       (* [str(e)] *)

(** The Streamlit calls of the submission branch that put something on the
    page (the columns are not modelled). *)
Inductive ui : Type :=
  | st_success (msg : list frag)
  | st_warning (msg : list frag)
  | st_error (msg : list frag)
  | st_info (msg : list frag)
  | st_markdown (msg : list frag)
  | st_caption (msg : list frag)
  | st_metric (label : string) (value : list frag)
  | st_expander (label : string) (body : list (list frag)).

(** The Google Sheets service as [connect_to_gsheet] and [save_to_gsheet] use
    it. [nuage] is the state of the remote service; a call may change it and
    may raise. *)
Class Tableur : Type := {
  nuage : Type;
  client : Type;
  spreadsheet : Type;
  worksheet : Type;
  (* ServiceAccountCredentials.from_json_keyfile_dict, gspread.authorize *)
  authorize : string → nuage → nuage * result client;
  open_by_url : client → string → nuage → nuage * result spreadsheet;
  sp_worksheet : spreadsheet → string → nuage → nuage * result worksheet;
  add_worksheet : spreadsheet → string → nuage → nuage * result worksheet;
  append_row : worksheet → list cell → nuage → nuage * result unit
}.

(** [st.secrets] *)
Record secrets : Type := Secrets {
  gsheet_credentials : option string;
  gsheet_url : option string
}.

Section programme.
Context `{Tableur}.

(** The world outside the computation: the page and the remote service. *)
Record monde : Type := Monde {
  ecran : list ui;
  distant : nuage
}.

(** A computation that shows messages, calls the service and may raise. *)
Definition prog (A : Type) : Type := monde → monde * result A.

Definition prog_ret {A} (a : A) : prog A := λ w, (w, Ok a).

Definition prog_bind {A B} (m : prog A) (f : A → prog B) : prog B := λ w,
  match m w with
  | (w', Ok a) => f a w'
  | (w', Raise e) => (w', Raise e)
  end.

(** [try: m  except Exception as e: handler(e)] *)
Definition try_except {A} (m : prog A) (handler : exn → prog A) : prog A := λ w,
  match m w with
  | (w', Ok a) => (w', Ok a)
  | (w', Raise e) => handler e w'
  end.

Definition lift {A} (r : result A) : prog A := λ w, (w, r).

Definition afficher (u : list ui) : prog unit := λ w,
  ({| ecran := ecran w ++ u; distant := distant w |}, Ok ()).

Definition appel {A} (op : nuage → nuage * result A) : prog A := λ w,
  let '(n, r) := op (distant w) in
  ({| ecran := ecran w; distant := n |}, r).
End programme.

Notation "x ⇐ m ; k" := (prog_bind m (λ x, k))
  (at level 20, m at level 100, k at level 200, right associativity,
   only parsing).

(** ** The legend of the total score

    The four ranges that the expander of the result page lists, each with its
    label. The page prints them as text under the total; no function of the
    application compares a total with a bound. *)

Record bande : Type := Bande {
  borne_inf : Z;
  borne_sup : Z;
  libelle : string
}.

Definition legende : list bande :=
  [ {| borne_inf := 0; borne_sup := 18; libelle := "Difficultés occasionnelles" |};
    {| borne_inf := 19; borne_sup := 36; libelle := "Difficultés modérées" |};
    {| borne_inf := 37; borne_sup := 54; libelle := "Difficultés importantes" |};
    {| borne_inf := 55; borne_sup := 72; libelle := "Difficultés très marquées" |} ].

(** One line of the legend, as markdown. *)
Definition ligne_legende (b : bande) : list frag :=
  [ Lit "- **"; Val (CVal (PInt (borne_inf b))); Lit "-";
    Val (CVal (PInt (borne_sup b))); Lit "** : "; Lit (libelle b) ].

(** ** The form and the submission ([show_questionnaire]) *)

(** [s.upper()], on the letters a..z. *)
Definition upper_ascii (c : Ascii.ascii) : Ascii.ascii :=
  let n := Ascii.nat_of_ascii c in
  if ((97 <=? n) && (n <=? 122))%nat then Ascii.ascii_of_nat (n - 32) else c.

Fixpoint upper (s : string) : string :=
  match s with
  | EmptyString => EmptyString
  | String c s' => String (upper_ascii c) (upper s')
  end.

(** What the widgets of the form return on one run of the script. *)
Record saisie : Type := Saisie {
  radio : nat → pyval;              (* [st.radio] of question [i + 1] *)
  slider_satisfaction : Z;
  slider_amelioration : string;
  text_commentaires : string;
  submitted : bool
}.

(** The question list of a questionnaire type. *)
Definition questions_de (cfg : config) (questionnaire_type : string) : list string :=
  if bool_decide (questionnaire_type = "pre") then questionnaire_pre cfg
  else if bool_decide (questionnaire_type = "post") then questionnaire_post cfg
  else questionnaire_retrospectif cfg.

(** Body of the two loops of the form:
<<
    st.markdown(f"**{i+1}. {questions[i]}**")
    response = st.radio(...)
    responses[f"Q{i+1}"] = response
    responses[f"Q{i+1}_text"] = questions[i]
>> *)
Definition boucle_question (questions : list string) (s : saisie)
    (responses : odict pyval) (i : nat) : result (odict pyval) :=
  question ← list_index questions i;
  let response := radio s i in
  let responses := odict_set (Q (i + 1)) response responses in
  Ok (odict_set (Q (i + 1) +:+ "_text") (PStr question) responses).

(** The dictionary [responses] that the form fills, from [responses = {}]. *)
Definition collecter_responses (cfg : config) (questionnaire_type : string)
    (s : saisie) : result (odict pyval) :=
  let questions := questions_de cfg questionnaire_type in
  responses ← for_each (boucle_question questions s) (range 0 6) [];
  responses ← for_each (boucle_question questions s) (range 6 18) responses;
  if bool_decide (questionnaire_type = "post")
     || bool_decide (questionnaire_type = "retrospectif")
  then
    let responses :=
      odict_set "satisfaction" (PInt (slider_satisfaction s)) responses in
    let responses :=
      if bool_decide (questionnaire_type = "retrospectif")
      then odict_set "amelioration_percue" (PStr (slider_amelioration s)) responses
      else responses in
    Ok (odict_set "commentaires" (PStr (text_commentaires s)) responses)
  else Ok responses.

(** The dictionary display [save_data = {...}], its thirteen fields in the
    order they are written. *)
Definition champs_de (questionnaire_type : string)
    (session_state : gmap string pyval) (now : string) (sc : scores)
    (pourcentage : float) : odict cell :=
  [ ("timestamp", CVal (PStr now));
    ("type_questionnaire", CVal (PStr questionnaire_type));
    ("email", CVal (dict_get session_state "email" (PStr "")));
    ("age", CVal (dict_get session_state "age" (PStr "")));
    ("genre", CVal (dict_get session_state "genre" (PStr "")));
    ("score_total", CVal (PInt (score_total sc)));
    ("score_max", CVal (PInt (score_max sc)));
    ("score_partie_a", CVal (PInt (score_partie_a sc)));
    ("score_partie_b", CVal (PInt (score_partie_b sc)));
    ("items_positifs_a", CVal (PInt (items_positifs_a sc)));
    ("items_positifs_b", CVal (PInt (items_positifs_b sc)));
    ("screening_positif", CBool (screening_positif sc));
    ("score_pourcentage", CFloat pourcentage) ].

(** The record [save_data]: the dictionary display, then
    [save_data.update(responses)]. The percentage is computed while the
    display is evaluated. *)
Definition save_data_de (questionnaire_type : string)
    (responses : odict pyval) (session_state : gmap string pyval) (now : string)
    (sc : scores) : result (odict cell) :=
  pourcentage ← score_pourcentage sc;
  let save_data :=
    champs_de questionnaire_type session_state now sc pourcentage in
  Ok (odict_update save_data (prod_map id CVal <$> responses)).

(** The result page (the long texts are cut after their first line). *)
Definition resultats (responses : odict pyval) (sc : scores)
    (save_data : odict cell) : list ui :=
  let entier z := Val (CVal (PInt z)) in
  [ st_markdown [Lit "---"];
    st_markdown [Lit "### 📊 Vos résultats - Méthode ASRS v1.1"];
    st_metric "Score total"
      [entier (score_total sc); Lit "/"; entier (score_max sc)];
    st_caption [Val (contenu save_data !!! "score_pourcentage"); Lit "%"];
    st_metric "Partie A (dépistage)" [entier (items_positifs_a sc); Lit "/6"];
    st_caption [Lit "Items au-dessus du seuil"] ]
  ++ match contenu responses !! "satisfaction" with
     | Some satisfaction => [st_metric "Satisfaction" [Val (CVal satisfaction); Lit "/10"]]
     | None => []
     end
  ++ [ st_markdown [Lit "#### 📊 Interprétation de vos résultats"];
       if screening_positif sc
       then st_warning [Lit "**Vos symptômes sont marqués** (";
                        entier (items_positifs_a sc); Lit "/6)"]
       else st_success [Lit "**Vos symptômes sont légers à modérés** (";
                        entier (items_positifs_a sc); Lit "/6)"];
       st_expander "ℹ️ Que signifient mes scores ?"
         ([Lit "**Votre score total : "; entier (score_total sc); Lit "/72**"]
          :: (ligne_legende <$> legende));
       st_info [Lit "💾 Vos réponses ont été enregistrées. Merci de votre participation !"] ].

Section soumission.
Context `{Tableur}.

(** [st_secrets] is what reading [st.secrets] gives: the secrets, or the
    exception of a missing secrets file. *)
Definition connect_to_gsheet (st_secrets : result secrets)
  : prog (option spreadsheet) :=
  try_except
    (secrets ⇐ lift st_secrets;
     match gsheet_credentials secrets with
     | Some credentials_dict =>
         client ⇐ appel (authorize credentials_dict);
         let sheet_url := default "" (gsheet_url secrets) in
         if bool_decide (sheet_url ≠ "") then
           spreadsheet ⇐ appel (open_by_url client sheet_url);
           prog_ret (Some spreadsheet)
         else
           _ ⇐ afficher [st_warning [Lit "⚠️ URL Google Sheet non configurée."]];
           prog_ret None
     | None =>
         _ ⇐ afficher [st_warning [Lit "⚠️ Pas de connexion Google Sheets configurée. Les données seront affichées mais non sauvegardées."]];
         prog_ret None
     end)
    (λ e,
       _ ⇐ afficher [st_warning [Lit "⚠️ Erreur de connexion Google Sheets: "; StrExn e]];
       prog_ret None).

(** The inner [try] looks the worksheet up and, on any exception, creates it
    and writes the header row; the outer [try] turns every exception into
    [st.error] and the result [False]. *)
Definition save_to_gsheet (sp : spreadsheet) (worksheet_name : string)
    (data : odict cell) : prog bool :=
  try_except
    (ws ⇐ try_except
            (appel (sp_worksheet sp worksheet_name))
            (λ _,
               ws ⇐ appel (add_worksheet sp worksheet_name);
               let headers := (λ k, CVal (PStr k)) <$> odict_keys data in
               _ ⇐ appel (append_row ws headers);
               prog_ret ws);
     let values := odict_values data in
     _ ⇐ appel (append_row ws values);
     prog_ret true)
    (λ e,
       _ ⇐ afficher [st_error [Lit "❌ Erreur lors de la sauvegarde: "; StrExn e]];
       prog_ret false).

(** The attempt to save: [None] without a spreadsheet, else the result of
    [save_to_gsheet].
<<
  spreadsheet = connect_to_gsheet()
  if spreadsheet:
      success = save_to_gsheet(spreadsheet, questionnaire_type.upper(), save_data)
      if success: st.success(...)
      else: st.warning(...)
>> *)
Definition tenter_sauvegarde (st_secrets : result secrets)
    (questionnaire_type : string) (save_data : odict cell)
  : prog (option bool) :=
  spreadsheet ⇐ connect_to_gsheet st_secrets;
  match spreadsheet with
  | Some sp =>
      success ⇐ save_to_gsheet sp (upper questionnaire_type) save_data;
      if success : bool then
        _ ⇐ afficher [st_success [Lit "✅ Réponses enregistrées avec succès !"]];
        prog_ret (Some true)
      else
        _ ⇐ afficher [st_warning [Lit "⚠️ Erreur d'enregistrement, mais vos réponses sont affichées ci-dessous"]];
        prog_ret (Some false)
  | None => prog_ret None
  end.

(** The branch [if submitted:]. *)
Definition soumettre (cfg : config) (questionnaire_type : string)
    (responses : odict pyval) (session_state : gmap string pyval) (now : string)
    (st_secrets : result secrets) : prog unit :=
  sc ⇐ lift (calculer_score_asrs (contenu responses) cfg);
  save_data ⇐ lift (save_data_de questionnaire_type responses session_state now sc);
  _ ⇐ tenter_sauvegarde st_secrets questionnaire_type save_data;
  afficher (resultats responses sc save_data).

Definition show_questionnaire (cfg : config) (questionnaire_type : string)
    (s : saisie) (session_state : gmap string pyval) (now : string)
    (st_secrets : result secrets) : prog unit :=
  responses ⇐ lift (collecter_responses cfg questionnaire_type s);
  if submitted s then
    soumettre cfg questionnaire_type responses session_state now st_secrets
  else prog_ret ().
End soumission.

(** ** The calculator as a procedure

    [calculer_score_asrs(responses, config)] is handed its two dictionaries by
    reference: what it wrote into them, the caller would see. It runs in a
    process that also holds [st.session_state], the page and the connection
    to the service. Here the body runs statement by statement on that memory;
    its local variables are the accumulators of the two loops. *)

Section procedure.
Context `{Tableur}.

Record memoire : Type := Memoire {
  mem_responses : odict pyval;             (* the object [responses] *)
  mem_config : config;                     (* the object [config] *)
  mem_session_state : gmap string pyval;   (* [st.session_state] *)
  mem_monde : monde                        (* the page and the service *)
}.

(** A statement: it may change the memory and may raise. *)
Definition proc (A : Type) : Type := memoire → memoire * result A.

Definition proc_ret {A} (a : A) : proc A := λ m, (m, Ok a).

Definition proc_bind {A B} (p : proc A) (f : A → proc B) : proc B := λ m,
  match p m with
  | (m', Ok a) => f a m'
  | (m', Raise e) => (m', Raise e)
  end.

Definition proc_raise {A} (e : exn) : proc A := λ m, (m, Raise e).

Fixpoint proc_for {S : Type} (body : S → nat → proc S) (l : list nat) (s : S)
  : proc S :=
  match l with
  | [] => proc_ret s
  | i :: l' => proc_bind (body s i) (proc_for body l')
  end.

(** [responses.get(k, dflt)] *)
Definition responses_get (k : string) (dflt : pyval) : proc pyval := λ m,
  (m, Ok (dict_get (contenu (mem_responses m)) k dflt)).

(** [config.get('seuils_partie_a', [2, 3, 2, 2, 3, 3])] *)
Definition config_get_seuils : proc (list Z) := λ m,
  (m, Ok (seuils_a (mem_config m))).

(** [seuils_a[i]] *)
Definition seuils_index (seuils : list Z) (i : nat) : proc Z := λ m,
  (m, list_index seuils i).

Definition proc_boucle_a (seuils : list Z) (acc : Z * Z) (i : nat)
  : proc (Z * Z) :=
  let '(score_partie_a, items_positifs_a) := acc in
  proc_bind (responses_get (Q (i + 1)) (PInt 0)) (λ score_i,
    match score_i with
    | PInt score_i =>
        let score_partie_a := score_partie_a + score_i in
        proc_bind (seuils_index seuils i) (λ seuil,
          if bool_decide (score_i >= seuil)
          then proc_ret (score_partie_a, items_positifs_a + 1)
          else proc_ret (score_partie_a, items_positifs_a))
    | _ => proc_raise TypeError
    end).

Definition proc_boucle_b (acc : Z * Z) (i : nat) : proc (Z * Z) :=
  let '(score_partie_b, items_positifs_b) := acc in
  proc_bind (responses_get (Q (i + 1)) (PInt 0)) (λ score_i,
    match score_i with
    | PInt score_i =>
        let score_partie_b := score_partie_b + score_i in
        if bool_decide (score_i >= 3)
        then proc_ret (score_partie_b, items_positifs_b + 1)
        else proc_ret (score_partie_b, items_positifs_b)
    | _ => proc_raise TypeError
    end).

Definition calculer_score_asrs_proc : proc scores :=
  proc_bind config_get_seuils (λ seuils,
  proc_bind (proc_for (proc_boucle_a seuils) (range 0 6) (0, 0))
    (λ '(score_partie_a, items_positifs_a),
  proc_bind (proc_for proc_boucle_b (range 6 18) (0, 0))
    (λ '(score_partie_b, items_positifs_b),
  let score_total := score_partie_a + score_partie_b in
  let score_max := 72 in
  let screening_positif := bool_decide (items_positifs_a >= 4) in
  proc_ret {| score_total := score_total;
              score_max := score_max;
              score_partie_a := score_partie_a;
              score_partie_b := score_partie_b;
              items_positifs_a := items_positifs_a;
              items_positifs_b := items_positifs_b;
              screening_positif := screening_positif |}))).

(** Two calls, one after the other, on the same objects. *)
Definition deux_appels : proc (scores * scores) :=
  proc_bind calculer_score_asrs_proc (λ scores1,
  proc_bind calculer_score_asrs_proc (λ scores2,
  proc_ret (scores1, scores2))).
End procedure.

(** ** The legend that a page shows

    The lines of the expanders of the page, the first line of each (the
    total) apart. *)
Definition legende_affichee (page : list ui) : list (list frag) :=
  flat_map (λ u, match u with
                 | st_expander _ (_ :: lignes) => lignes
                 | _ => []
                 end) page.

(** ** The configuration file, the consent form and [main] *)

(** The configuration as [main] hands it to the two pages: the keys that
    the questionnaire reads and the text [config['consentement']['texte']]. *)
Record application : Type := Application {
  app_config : config;
  consentement_texte : string
}.

(** What [open('config.json')] followed by [json.load] gives. A file that
    was read is taken to hold the keys that the pages read: it is a
    dictionary, and not an empty one. *)
Inductive lecture : Type :=
  | Introuvable               (* FileNotFoundError *)
  | Illisible (e : exn)       (* any other exception of [open] or [json.load] *)
  | Lu (app : application).

(** [st.session_state], as the application writes it: the key ['consented']
    holds a boolean once [main] has run; the other keys (['email'], ['age'],
    ['genre'], ['consent_date']) hold the values of the consent form. *)
Record session : Type := Session {
  consented : option bool;
  champs : gmap string pyval
}.

(** What the widgets of the consent form return on one run. *)
Record saisie_consentement : Type := SaisieConsentement {
  text_email : string;
  number_age : Z;                (* [st.number_input], from 5 to 100 *)
  select_genre : string;
  checkbox_consent : bool;
  consent_submitted : bool
}.

(** How a run of the script ends. *)
Inductive fin : Type :=
  | Fini
  | Stop                      (* [st.stop()] *)
  | Rerun                     (* [st.rerun()] *)
  | Leve (e : exn).

(** What one run of the script reads from outside. *)
Record entree : Type := Entree {
  config_json : lecture;
  sidebar_radio : string;
  widgets_consentement : saisie_consentement;
  widgets_questionnaire : saisie;
  maintenant : string;           (* [datetime.now().isoformat()] *)
  secrets_lus : result secrets
}.

(** The sessions that runs of [main] reach hold either nothing, before the
    consent, or the four values of the consent form. *)
Definition session_saine (ss : session) : Prop :=
  match consented ss with
  | Some true =>
      ∃ email age genre date,
        champs ss
        = <["consent_date" := PStr date]>
            (<["genre" := PStr genre]>
               (<["age" := PInt age]> {["email" := PStr email]}))
        ∧ 5 ≤ age ≤ 100
  | _ => champs ss = ∅
  end.

Section application.
Context `{Tableur}.

(** [FileNotFoundError] alone is caught. *)
Definition load_config (l : lecture) : prog (option application) :=
  match l with
  | Introuvable =>
      _ ⇐ afficher [st_error [Lit "❌ Fichier config.json introuvable !"]];
      prog_ret None
  | Illisible e => lift (Raise e)
  | Lu app => prog_ret (Some app)
  end.

(** Of the page, the text of the consent and the two messages are recorded
    (the title, the sub-title and the widgets are not). *)
Definition show_consent_form (app : application) (c : saisie_consentement)
    (now : string) (ss : session) (w : monde) : session * monde * fin :=
  let w := (afficher [st_markdown [Lit (consentement_texte app)];
                       st_markdown [Lit "---"]] w).1 in
  if consent_submitted c then
    if negb (checkbox_consent c) then
      (ss,
       (afficher [st_error [Lit "❌ Vous devez accepter le consentement pour continuer"]] w).1,
       Fini)
    else
      let ss :=
        {| consented := Some true;
           champs := <["consent_date" := PStr now]>
                       (<["genre" := PStr (select_genre c)]>
                          (<["age" := PInt (number_age c)]>
                             (<["email" := PStr (text_email c)]> (champs ss)))) |} in
      (ss,
       (afficher [st_success [Lit "✅ Consentement enregistré ! Vous pouvez maintenant remplir le questionnaire."]] w).1,
       Rerun)
  else (ss, w, Fini).

(** One run of [main] (the side bar is not recorded). A configuration that
    was read is a non-empty dictionary, so [not config] holds for [None]
    only. *)
Definition main (e : entree) (ss : session) (w : monde) : session * monde * fin :=
  match load_config (config_json e) w with
  | (w, Raise ex) => (ss, w, Leve ex)
  | (w, Ok None) => (ss, w, Stop)
  | (w, Ok (Some app)) =>
      let ss :=
        match consented ss with
        | None => {| consented := Some false; champs := champs ss |}
        | Some _ => ss
        end in
      let consenti := default false (consented ss) in
      let page := if negb consenti then "Consentement" else sidebar_radio e in
      let questionnaire questionnaire_type :=
        match show_questionnaire (app_config app) questionnaire_type
                (widgets_questionnaire e) (champs ss) (maintenant e)
                (secrets_lus e) w with
        | (w', Ok _) => (ss, w', Fini)
        | (w', Raise ex) => (ss, w', Leve ex)
        end in
      if bool_decide (page = "Consentement") || negb consenti then
        show_consent_form app (widgets_consentement e) (maintenant e) ss w
      else if bool_decide (page = "PRÉ-intervention (nouveaux clients)") then
        questionnaire "pre"
      else if bool_decide (page = "POST-intervention (après la méthode)") then
        questionnaire "post"
      else if bool_decide (page = "Rétrospectif (anciens clients)") then
        questionnaire "retrospectif"
      else (ss, w, Fini)
  end.

(** The sessions that runs of [main] reach from an empty session, the age
    widget returning a number within its bounds. *)
Inductive accessible : session → Prop :=
  | accessible_debut : accessible {| consented := None; champs := ∅ |}
  | accessible_main e ss w :
      accessible ss →
      5 ≤ number_age (widgets_consentement e) ≤ 100 →
      accessible (main e ss w).1.1.
End application.

(** ** The specification's reading of a response set

    These definitions follow the words of the specification (sums and counts
    over the items 1..18); the theorems below compare them with what
    [calculer_score_asrs] computes. *)

(** The integer stored for item [n]; an absent item reads as 0. *)
Definition valeur (responses : gmap string pyval) (n : nat) : Z :=
  match responses !! Q n with
  | Some (PInt v) => v
  | _ => 0
  end.

Definition somme_items (responses : gmap string pyval) (items : list nat) : Z :=
  foldr (λ n acc, valeur responses n + acc) 0 items.

Fixpoint compte (P : nat → bool) (items : list nat) : Z :=
  match items with
  | [] => 0
  | n :: items' => (if P n then 1 else 0) + compte P items'
  end.

(** Item [n] of Part A reaches its threshold, the entry [n - 1] of the
    threshold sequence. *)
Definition positif_a (seuils : list Z) (responses : gmap string pyval)
    (n : nat) : bool :=
  match seuils !! (n - 1)%nat with
  | Some s => bool_decide (s ≤ valeur responses n)
  | None => false
  end.

(** Item [n] of Part B reaches the fixed threshold 3. *)
Definition positif_b (responses : gmap string pyval) (n : nat) : bool :=
  bool_decide (3 ≤ valeur responses n).

Definition items_a : list nat := seq 1 6.
Definition items_b : list nat := seq 7 12.

Definition partA_score r := somme_items r items_a.
Definition partB_score r := somme_items r items_b.
Definition partA_positive_count seuils r := compte (positif_a seuils r) items_a.
Definition partB_positive_count r := compte (positif_b r) items_b.

(** Item [n] is present with an integer value. *)
Definition present (responses : gmap string pyval) (n : nat) : bool :=
  match responses !! Q n with
  | Some (PInt _) => true
  | _ => false
  end.

(** Item [n] is absent, or present with an integer value. *)
Definition lisible (responses : gmap string pyval) (n : nat) : bool :=
  match responses !! Q n with
  | None | Some (PInt _) => true
  | _ => false
  end.

(** Every item 1..18 holds the integer [v]. *)
Definition tous_a (v : Z) (responses : gmap string pyval) : bool :=
  forallb (λ n, present responses n && (valeur responses n =? v)) (seq 1 18).

(** A response set holding an integer for every item 1..18. *)
Definition complet (responses : gmap string pyval) : bool :=
  forallb (present responses) (seq 1 18).

(** Every item 1..18 that is present holds an integer. *)
Definition entiers (responses : gmap string pyval) : bool :=
  forallb (lisible responses) (seq 1 18).

(** Every item 1..18 holds an integer between [lo] and [hi]. *)
Definition dans_echelle (lo hi : Z) (responses : gmap string pyval) : bool :=
  forallb (λ n, present responses n
                && bool_decide (lo ≤ valeur responses n ≤ hi)) (seq 1 18).

(** The report, as the specification describes it field by field. *)
Definition rapport (seuils : list Z) (r : gmap string pyval) : scores :=
  {| score_total := partA_score r + partB_score r;
     score_max := 72;
     score_partie_a := partA_score r;
     score_partie_b := partB_score r;
     items_positifs_a := partA_positive_count seuils r;
     items_positifs_b := partB_positive_count r;
     screening_positif := bool_decide (partA_positive_count seuils r >= 4) |}.

(** Every absent item of 1..18 filled in with the value 0. *)
Definition combler_item (n : nat) (m : gmap string pyval) : gmap string pyval :=
  match m !! Q n with
  | None => <[Q n := PInt 0]> m
  | Some _ => m
  end.

Definition combler (responses : gmap string pyval) : gmap string pyval :=
  foldr combler_item responses (seq 1 18).

(** ** Sample inputs *)

(** The response set giving item [n] (1..18) the value [f n]. *)
Definition reponses_de (f : nat → Z) : gmap string pyval :=
  list_to_map ((λ n, (Q n, PInt (f n))) <$> seq 1 18).

Definition config_defaut : config :=
  {| seuils_partie_a := None;
     echelle_likert := ["Jamais"; "Rarement"; "Parfois"; "Souvent"; "Tres souvent"];
     questionnaire_pre := [];
     questionnaire_post := [];
     questionnaire_retrospectif := [] |}.

(** A configuration with its own Part A thresholds and a three-level scale. *)
Definition config_seuils_1 : config :=
  {| seuils_partie_a := Some [1; 1; 1; 1; 1; 1];
     echelle_likert := ["Non"; "Un peu"; "Oui"];
     questionnaire_pre := [];
     questionnaire_post := [];
     questionnaire_retrospectif := [] |}.

(** [config_defaut] with another scale and question list. *)
Definition config_autre_echelle : config :=
  {| seuils_partie_a := None;
     echelle_likert := ["0"; "1"; "2"];
     questionnaire_pre := ["Question 1"];
     questionnaire_post := [];
     questionnaire_retrospectif := [] |}.

(** A configuration with one threshold too few. *)
Definition config_cinq_seuils : config :=
  {| seuils_partie_a := Some [2; 3; 2; 2; 3];
     echelle_likert := echelle_likert config_defaut;
     questionnaire_pre := [];
     questionnaire_post := [];
     questionnaire_retrospectif := [] |}.

Definition tout_4 : gmap string pyval := reponses_de (λ _, 4).
Definition tout_0 : gmap string pyval := reponses_de (λ _, 0).

(** Items 1..4 at their default thresholds 2, 3, 2, 2; everything else 0. *)
Definition quatre_positifs : gmap string pyval :=
  reponses_de (λ n, match n with 1%nat | 3%nat | 4%nat => 2 | 2%nat => 3 | _ => 0 end).

(** Items 1..3 at their default thresholds, item 4 just below its own. *)
Definition trois_positifs : gmap string pyval :=
  reponses_de (λ n, match n with 1%nat | 3%nat => 2 | 2%nat => 3 | 4%nat => 1 | _ => 0 end).

(** [tout_4] with the entries the form adds besides the item values. *)
Definition tout_4_et_textes : gmap string pyval :=
  <["Q1_text" := PStr "Question 1"]> (<["commentaires" := PStr ""]> tout_4).

Definition sans_q7 : gmap string pyval := delete (Q 7) tout_4.
Definition q1_negatif : gmap string pyval := <[Q 1 := PInt (-1)]> tout_0.
Definition q1_hors_echelle : gmap string pyval := <[Q 1 := PInt 9]> tout_0.

(** A service on which every call raises. *)
Definition tableur_en_panne : Tableur :=
  {| nuage := unit; client := unit; spreadsheet := unit; worksheet := unit;
     authorize := λ _ n, (n, Raise (Exception "503"));
     open_by_url := λ _ _ n, (n, Raise (Exception "503"));
     sp_worksheet := λ _ _ n, (n, Raise (Exception "503"));
     add_worksheet := λ _ _ n, (n, Raise (Exception "503"));
     append_row := λ _ _ n, (n, Raise (Exception "503")) |}.

(** A service that lets the client in and then refuses every write. *)
Definition tableur_lecture_seule : Tableur :=
  {| nuage := unit; client := unit; spreadsheet := unit; worksheet := unit;
     authorize := λ _ n, (n, Ok ());
     open_by_url := λ _ _ n, (n, Ok ());
     sp_worksheet := λ _ _ n, (n, Ok ());
     add_worksheet := λ _ _ n, (n, Raise (Exception "403"));
     append_row := λ _ _ n, (n, Raise (Exception "403")) |}.

(** A service that works: the worksheets by name, each a list of rows. *)
Definition tableur_memoire : Tableur :=
  {| nuage := gmap string (list (list cell));
     client := unit; spreadsheet := unit; worksheet := string;
     authorize := λ _ n, (n, Ok ());
     open_by_url := λ _ _ n, (n, Ok ());
     sp_worksheet := λ _ name n,
       match n !! name with
       | Some _ => (n, Ok name)
       | None => (n, Raise (Exception "WorksheetNotFound"))
       end;
     add_worksheet := λ _ name n, (<[name := []]> n, Ok name);
     append_row := λ name row n,
       (<[name := default [] (n !! name) ++ [row]]> n, Ok ()) |}.

(** An empty page in front of each of the three services. *)
Definition monde_en_panne : @monde tableur_en_panne :=
  @Monde tableur_en_panne [] tt.
Definition monde_lecture_seule : @monde tableur_lecture_seule :=
  @Monde tableur_lecture_seule [] tt.
Definition monde_memoire : @monde tableur_memoire :=
  @Monde tableur_memoire [] (∅ : gmap string (list (list cell))).

Definition secrets_complets : result secrets :=
  Ok {| gsheet_credentials := Some "{...}";
        gsheet_url := Some "https://docs.google.com/spreadsheets/d/1" |}.

Definition secrets_vides : result secrets :=
  Ok {| gsheet_credentials := None; gsheet_url := None |}.

(** A configuration with its 18 questions. *)
Definition config_complete : config :=
  {| seuils_partie_a := None;
     echelle_likert := echelle_likert config_defaut;
     questionnaire_pre := (λ n, "Question " +:+ pretty n) <$> seq 1 18;
     questionnaire_post := (λ n, "Question " +:+ pretty n) <$> seq 1 18;
     questionnaire_retrospectif := (λ n, "Question " +:+ pretty n) <$> seq 1 18 |}.

(** Every question answered "Souvent" (3), form submitted. *)
Definition saisie_tout_3 : saisie :=
  {| radio := λ _, PInt 3;
     slider_satisfaction := 5;
     slider_amelioration := "Pas changés";
     text_commentaires := "";
     submitted := true |}.

(** The dictionary that the form fills from [saisie_tout_3]. *)
Definition reponses_tout_3 : odict pyval :=
  flat_map (λ n, [ (Q n, PInt 3);
                   (Q n +:+ "_text", PStr ("Question " +:+ pretty n)) ])
    (seq 1 18).

(** Every question answered "Jamais" (0), and every question answered
    "Très souvent" (4). *)
Definition saisie_tout_0 : saisie :=
  {| radio := λ _, PInt 0;
     slider_satisfaction := 5;
     slider_amelioration := "Pas changés";
     text_commentaires := "";
     submitted := true |}.

Definition saisie_tout_4 : saisie :=
  {| radio := λ _, PInt 4;
     slider_satisfaction := 5;
     slider_amelioration := "Pas changés";
     text_commentaires := "";
     submitted := true |}.

Definition scores_tout_3 : scores :=
  {| score_total := 54; score_max := 72;
     score_partie_a := 18; score_partie_b := 36;
     items_positifs_a := 6; items_positifs_b := 12;
     screening_positif := true |}.

Definition session_vide : gmap string pyval := ∅.

(** Two states of the process that hold the same [responses] and the same
    [config]: before anything was shown or saved, and later, with a session,
    a page and a worksheet. *)
Definition memoire_debut : @memoire tableur_memoire :=
  {| mem_responses := reponses_tout_3;
     mem_config := config_complete;
     mem_session_state := ∅;
     mem_monde := monde_memoire |}.

Definition memoire_suite : @memoire tableur_memoire :=
  {| mem_responses := reponses_tout_3;
     mem_config := config_complete;
     mem_session_state := {[ "email" := PStr "a@b.fr"; "age" := PInt 30 ]};
     mem_monde :=
       @Monde tableur_memoire
         [st_success [Lit "✅ Réponses enregistrées avec succès !"]]
         ({[ "PRE" := [[CVal (PStr "timestamp")]] ]}
            : gmap string (list (list cell))) |}.

(** The page of a submitted questionnaire, on a service without secrets. *)
Definition page_de (s : saisie) : list ui :=
  ecran (@show_questionnaire tableur_en_panne config_complete "pre" s
           session_vide "2025-01-01T10:00:00" secrets_vides monde_en_panne).1.

(** ** More sample inputs *)

(** A six-level scale, and every item at its top value 5. *)
Definition config_six_niveaux : config :=
  {| seuils_partie_a := None;
     echelle_likert := ["0"; "1"; "2"; "3"; "4"; "5"];
     questionnaire_pre := [];
     questionnaire_post := [];
     questionnaire_retrospectif := [] |}.

Definition tout_5 : gmap string pyval := reponses_de (λ _, 5).

(** The default thresholds followed by two entries that no item uses. *)
Definition config_huit_seuils : config :=
  {| seuils_partie_a := Some [2; 3; 2; 2; 3; 3; 0; 9];
     echelle_likert := echelle_likert config_defaut;
     questionnaire_pre := [];
     questionnaire_post := [];
     questionnaire_retrospectif := [] |}.

(** Sample runs: the consent given, then the first questionnaire sent. *)
Definition application_complete : application :=
  {| app_config := config_complete;
     consentement_texte := "Texte du consentement" |}.

Definition consentement_donne : saisie_consentement :=
  {| text_email := "a@b.fr"; number_age := 30; select_genre := "Femme";
     checkbox_consent := true; consent_submitted := true |}.

Definition consentement_refuse : saisie_consentement :=
  {| text_email := "a@b.fr"; number_age := 30; select_genre := "Femme";
     checkbox_consent := false; consent_submitted := true |}.

Definition entree_consentement : entree :=
  {| config_json := Lu application_complete;
     sidebar_radio := "Consentement";
     widgets_consentement := consentement_donne;
     widgets_questionnaire := saisie_tout_3;
     maintenant := "2025-01-01T10:00:00";
     secrets_lus := secrets_complets |}.

(** A run with the first questionnaire asked for in the side bar, the box of
    the consent form left unticked. *)
Definition entree_questionnaire : entree :=
  {| config_json := Lu application_complete;
     sidebar_radio := "PRÉ-intervention (nouveaux clients)";
     widgets_consentement := consentement_refuse;
     widgets_questionnaire := saisie_tout_3;
     maintenant := "2025-01-02T10:00:00";
     secrets_lus := secrets_complets |}.

Definition session_initiale : session := {| consented := None; champs := ∅ |}.

Definition session_consentie : session :=
  (@main tableur_memoire entree_consentement session_initiale monde_memoire).1.1.

(** * Properties *)

(** ** Lemmas on the two loops *)

Lemma Q_inj n m : Q n = Q m → n = m.
Proof.
  unfold Q. intros H. apply (inj (String.append "Q")) in H.
  by apply (inj pretty) in H.
Qed.

Lemma complet_present r n :
  complet r = true → (1 ≤ n ≤ 18)%nat → present r n = true.
Proof.
  unfold complet. rewrite forallb_forall. intros H Hn.
  apply H, in_seq. lia.
Qed.

Lemma entiers_lisible r n :
  entiers r = true → (1 ≤ n ≤ 18)%nat → lisible r n = true.
Proof.
  unfold entiers. rewrite forallb_forall. intros H Hn.
  apply H, in_seq. lia.
Qed.

Lemma present_lisible r n : present r n = true → lisible r n = true.
Proof. unfold present, lisible. by repeat case_match. Qed.

Lemma complet_entiers r : complet r = true → entiers r = true.
Proof.
  unfold complet, entiers. rewrite !forallb_forall.
  intros H n Hn. by apply present_lisible, H.
Qed.

Lemma dans_echelle_complet lo hi r : dans_echelle lo hi r = true → complet r = true.
Proof.
  unfold dans_echelle, complet. rewrite !forallb_forall.
  intros H n Hn. specialize (H n Hn). by apply andb_prop in H as [? _].
Qed.

Lemma dans_echelle_valeur lo hi r n :
  dans_echelle lo hi r = true → (1 ≤ n ≤ 18)%nat → lo ≤ valeur r n ≤ hi.
Proof.
  unfold dans_echelle. rewrite forallb_forall. intros H Hn.
  assert (In n (seq 1 18)) as Hin by (apply in_seq; lia).
  apply H, andb_prop in Hin as [_ Hb]. by apply bool_decide_eq_true in Hb.
Qed.

(** What one reading [responses.get(f'Q{n}', 0)] gives on a readable item. *)
Lemma dict_get_lisible r n :
  lisible r n = true → dict_get r (Q n) (PInt 0) = PInt (valeur r n).
Proof.
  unfold lisible, dict_get, valeur.
  destruct (r !! Q n) as [[]|]; simpl; congruence.
Qed.

Section boucles.
Variable responses : gmap string pyval.

Lemma boucle_a_lisible seuils i s p :
  (i < length seuils)%nat → lisible responses (S i) = true →
  boucle_a responses seuils (s, p) i
  = Ok (s + valeur responses (S i),
        p + if positif_a seuils responses (S i) then 1 else 0).
Proof.
  intros [t Ht]%lookup_lt_is_Some_2 Hr. unfold boucle_a, positif_a.
  rewrite Nat.add_1_r, (dict_get_lisible _ _ Hr).
  unfold list_index. simpl. rewrite Nat.sub_0_r, Ht. simpl.
  repeat case_bool_decide; try lia; f_equal; f_equal; lia.
Qed.

Lemma boucle_b_lisible i s p :
  lisible responses (S i) = true →
  boucle_b responses (s, p) i
  = Ok (s + valeur responses (S i),
        p + if positif_b responses (S i) then 1 else 0).
Proof.
  intros Hr. unfold boucle_b, positif_b.
  rewrite Nat.add_1_r, (dict_get_lisible _ _ Hr).
  repeat case_bool_decide; try lia; f_equal; f_equal; lia.
Qed.

Lemma for_each_boucle_a seuils l s p :
  Forall (λ i, (i < length seuils)%nat ∧ lisible responses (S i) = true) l →
  for_each (boucle_a responses seuils) l (s, p)
  = Ok (s + somme_items responses (S <$> l),
        p + compte (positif_a seuils responses) (S <$> l)).
Proof.
  intros Hl. revert s p.
  induction Hl as [|i l [Hi Hr] _ IH]; intros s p.
  - simpl. f_equal. f_equal; lia.
  - cbn [for_each]. rewrite boucle_a_lisible by done.
    cbn [mbind result_bind]. rewrite IH. rewrite fmap_cons.
    cbn [somme_items foldr compte]. fold (somme_items responses (S <$> l)).
    f_equal. f_equal; lia.
Qed.

Lemma for_each_boucle_b l s p :
  Forall (λ i, lisible responses (S i) = true) l →
  for_each (boucle_b responses) l (s, p)
  = Ok (s + somme_items responses (S <$> l),
        p + compte (positif_b responses) (S <$> l)).
Proof.
  intros Hl. revert s p.
  induction Hl as [|i l Hr _ IH]; intros s p.
  - simpl. f_equal. f_equal; lia.
  - cbn [for_each]. rewrite boucle_b_lisible by done.
    cbn [mbind result_bind]. rewrite IH. rewrite fmap_cons.
    cbn [somme_items foldr compte]. fold (somme_items responses (S <$> l)).
    f_equal. f_equal; lia.
Qed.
End boucles.

(** On integer items and with six thresholds or more, the calculator returns
    the report of the specification. *)
Lemma calculer_score_asrs_rapport r cfg :
  entiers r = true → (6 ≤ length (seuils_a cfg))%nat →
  calculer_score_asrs r cfg = Ok (rapport (seuils_a cfg) r).
Proof.
  intros Hr Hs. unfold calculer_score_asrs.
  rewrite for_each_boucle_a.
  2:{ apply Forall_forall. intros i Hi%list_elem_of_In%in_seq. split; [lia|].
      apply entiers_lisible; [done|lia]. }
  cbv beta iota delta [mbind result_bind]. rewrite for_each_boucle_b.
  2:{ apply Forall_forall. intros i Hi%list_elem_of_In%in_seq. simpl in Hi.
      apply entiers_lisible; [done|lia]. }
  reflexivity.
Qed.

Lemma for_each_ext {S} (body1 body2 : S → nat → result S) l s :
  (∀ i s', i ∈ l → body1 s' i = body2 s' i) →
  for_each body1 l s = for_each body2 l s.
Proof.
  revert s. induction l as [|i l IH]; intros s Hb; [done|].
  cbn [for_each]. rewrite Hb by left.
  destruct (body2 s i) as [s'|e]; [|done].
  cbn [mbind result_bind]. apply IH. intros j s'' Hj. apply Hb. by right.
Qed.

Lemma somme_items_ext r r' l :
  (∀ n, n ∈ l → valeur r n = valeur r' n) → somme_items r l = somme_items r' l.
Proof.
  induction l as [|n l IH]; intros H; [done|]. cbn [somme_items foldr].
  fold (somme_items r l) (somme_items r' l).
  rewrite H by left. rewrite IH; [done|]. intros m Hm. apply H. by right.
Qed.

Lemma compte_ext P P' l :
  (∀ n, n ∈ l → P n = P' n) → compte P l = compte P' l.
Proof.
  induction l as [|n l IH]; intros H; [done|]. cbn [compte].
  rewrite H by left. rewrite IH; [done|]. intros m Hm. apply H. by right.
Qed.

(** One item changes from not counted to counted: the count grows by one. *)
Lemma compte_un_de_plus P P' l n :
  NoDup l → n ∈ l → (∀ m, m ∈ l → m ≠ n → P m = P' m) →
  P n = true → P' n = false → compte P l = compte P' l + 1.
Proof.
  intros Hnd Hin Hext Hp Hp'. induction Hnd as [|m l Hm Hnd IH]; [by inversion Hin|].
  cbn [compte]. apply elem_of_cons in Hin as [->|Hin].
  - rewrite Hp, Hp'. rewrite (compte_ext P P' l); [lia|].
    intros k Hk. apply Hext; [by right|]. intros ->. done.
  - rewrite Hext; [|by left|intros ->; done].
    rewrite IH; [lia|done|]. intros k Hk. apply Hext. by right.
Qed.

Lemma somme_items_borne lo hi r l :
  (∀ n, n ∈ l → lo ≤ valeur r n ≤ hi) →
  lo * Z.of_nat (length l) ≤ somme_items r l ≤ hi * Z.of_nat (length l).
Proof.
  induction l as [|n l IH]; intros H; [simpl; lia|].
  cbn [somme_items foldr length]. fold (somme_items r l).
  assert (lo ≤ valeur r n ≤ hi) by (apply H; left).
  assert (lo * Z.of_nat (length l) ≤ somme_items r l ≤ hi * Z.of_nat (length l)).
  { apply IH. intros m Hm. apply H. by right. }
  lia.
Qed.

Lemma somme_items_app r l1 l2 :
  somme_items r (l1 ++ l2) = somme_items r l1 + somme_items r l2.
Proof.
  induction l1 as [|n l1 IH]; [done|]. cbn [somme_items foldr app].
  fold (somme_items r (l1 ++ l2)) (somme_items r l1). rewrite IH. lia.
Qed.

Lemma rapport_ext seuils r r' :
  (∀ n, (1 ≤ n ≤ 18)%nat → valeur r n = valeur r' n) →
  rapport seuils r = rapport seuils r'.
Proof.
  intros H.
  assert (partA_score r = partA_score r') as Ha.
  { apply somme_items_ext. intros n Hn%list_elem_of_In%in_seq. apply H. lia. }
  assert (partB_score r = partB_score r') as Hb.
  { apply somme_items_ext. intros n Hn%list_elem_of_In%in_seq. apply H. lia. }
  assert (partA_positive_count seuils r = partA_positive_count seuils r') as Hpa.
  { apply compte_ext. intros n Hn%list_elem_of_In%in_seq.
    unfold positif_a. rewrite H by lia. done. }
  assert (partB_positive_count r = partB_positive_count r') as Hpb.
  { apply compte_ext. intros n Hn%list_elem_of_In%in_seq.
    unfold positif_b. rewrite H by lia. done. }
  unfold rapport. by rewrite Ha, Hb, Hpa, Hpb.
Qed.

(** Reading an item after an assignment [responses[f'Q{n}'] = v]. *)
Lemma valeur_insert r n v m :
  valeur (<[Q n := PInt v]> r) m = if decide (n = m) then v else valeur r m.
Proof.
  unfold valeur. case_decide as Hnm.
  - subst. by rewrite lookup_insert_eq.
  - rewrite lookup_insert_ne; [done|]. intros HQ. by apply Q_inj in HQ.
Qed.

Lemma lisible_insert r n v m :
  lisible r m = true → lisible (<[Q n := PInt v]> r) m = true.
Proof.
  unfold lisible. destruct (decide (n = m)) as [->|Hnm].
  - by rewrite lookup_insert_eq.
  - rewrite lookup_insert_ne; [done|]. intros HQ. by apply Q_inj in HQ.
Qed.

Lemma entiers_insert r n v : entiers r = true → entiers (<[Q n := PInt v]> r) = true.
Proof.
  unfold entiers. rewrite !forallb_forall. intros H m Hm.
  by apply lisible_insert, H.
Qed.

(** ** The score calculator *)

(** C1. For every response set holding an integer for each item 1..18
    (and a configuration with six thresholds), the report's
    [screening_positif] flag is true if and only if the Part A positive
    count, the number of items 1..6 whose value reaches that item's
    threshold, is at least 4: true at exactly 4 positives, false at exactly 3. *)
Theorem screening_positif_iff_quatre r cfg :
  complet r = true → (6 ≤ length (seuils_a cfg))%nat →
  ∃ sc, calculer_score_asrs r cfg = Ok sc
      ∧ items_positifs_a sc = partA_positive_count (seuils_a cfg) r
      ∧ (screening_positif sc = true ↔ 4 ≤ partA_positive_count (seuils_a cfg) r)
      ∧ (partA_positive_count (seuils_a cfg) r = 4 → screening_positif sc = true)
      ∧ (partA_positive_count (seuils_a cfg) r = 3 → screening_positif sc = false).
Proof.
  intros Hr Hs. eexists. split.
  { apply calculer_score_asrs_rapport; [by apply complet_entiers|done]. }
  cbn [rapport items_positifs_a screening_positif].
  split; [done|]. split; [|split].
  - rewrite bool_decide_eq_true. lia.
  - intros ->. done.
  - intros ->. done.
Qed.

Lemma screening_positif_iff_quatre_witness :
  ∃ sc, calculer_score_asrs quatre_positifs config_defaut = Ok sc
      ∧ items_positifs_a sc
        = partA_positive_count (seuils_a config_defaut) quatre_positifs
      ∧ (screening_positif sc = true
         ↔ 4 ≤ partA_positive_count (seuils_a config_defaut) quatre_positifs)
      ∧ (partA_positive_count (seuils_a config_defaut) quatre_positifs = 4
         → screening_positif sc = true)
      ∧ (partA_positive_count (seuils_a config_defaut) quatre_positifs = 3
         → screening_positif sc = false).
Proof.
  apply (screening_positif_iff_quatre quatre_positifs config_defaut).
  - vm_compute. reflexivity.
  - simpl. lia.
Defined.

(** The two boundary cases of C1, evaluated: exactly four positives, then
    exactly three. *)
Example screening_a_quatre :
  partA_positive_count (seuils_a config_defaut) quatre_positifs = 4
  ∧ screening_positif <$> calculer_score_asrs quatre_positifs config_defaut
    = Ok true.
Proof. vm_compute. done. Qed.

Example screening_a_trois :
  partA_positive_count (seuils_a config_defaut) trois_positifs = 3
  ∧ screening_positif <$> calculer_score_asrs trois_positifs config_defaut
    = Ok false.
Proof. vm_compute. done. Qed.

Lemma items_a_b : seq 1 18 = items_a ++ items_b.
Proof. reflexivity. Qed.

Lemma scores_bornes r :
  dans_echelle 0 4 r = true → 0 ≤ partA_score r ≤ 24 ∧ 0 ≤ partB_score r ≤ 48.
Proof.
  intros Hr.
  assert (∀ l, (∀ n, n ∈ l → (1 ≤ n ≤ 18)%nat) →
               0 ≤ somme_items r l ≤ 4 * Z.of_nat (length l)) as H.
  { intros l Hl. pose proof (somme_items_borne 0 4 r l) as Hb.
    rewrite Z.mul_0_l in Hb. apply Hb. intros n Hn.
    apply (dans_echelle_valeur _ _ _ _ Hr), Hl, Hn. }
  split.
  - apply (H items_a). intros n Hn%elem_of_seq. lia.
  - apply (H items_b). intros n Hn%elem_of_seq. lia.
Qed.

(** C3. For every response set whose 18 item values lie in [0, 4], the total
    equals the Part A score (sum of items 1..6) plus the Part B score (sum of
    items 7..18), and lies between 0 and 72 inclusive. *)
Theorem score_total_somme_bornee r cfg :
  dans_echelle 0 4 r = true → (6 ≤ length (seuils_a cfg))%nat →
  ∃ sc, calculer_score_asrs r cfg = Ok sc
      ∧ score_partie_a sc = partA_score r
      ∧ score_partie_b sc = partB_score r
      ∧ score_total sc = score_partie_a sc + score_partie_b sc
      ∧ score_total sc = somme_items r (seq 1 18)
      ∧ 0 ≤ score_total sc ≤ 72.
Proof.
  intros Hr Hs. eexists. split.
  { apply calculer_score_asrs_rapport; [|done].
    by eapply complet_entiers, dans_echelle_complet. }
  cbn [rapport score_partie_a score_partie_b score_total].
  repeat split; try done.
  - rewrite items_a_b, somme_items_app. done.
  - pose proof (scores_bornes r Hr). lia.
  - pose proof (scores_bornes r Hr). lia.
Qed.

Lemma score_total_somme_bornee_witness :
  ∃ sc, calculer_score_asrs quatre_positifs config_defaut = Ok sc
      ∧ score_partie_a sc = partA_score quatre_positifs
      ∧ score_partie_b sc = partB_score quatre_positifs
      ∧ score_total sc = score_partie_a sc + score_partie_b sc
      ∧ score_total sc = somme_items quatre_positifs (seq 1 18)
      ∧ 0 ≤ score_total sc ≤ 72.
Proof.
  apply (score_total_somme_bornee quatre_positifs config_defaut).
  - vm_compute. reflexivity.
  - simpl. lia.
Defined.

(** The count of Part A after one item is overwritten. *)
Lemma partA_positive_count_un_de_plus seuils r n s v :
  (1 ≤ n ≤ 6)%nat → seuils !! (n - 1)%nat = Some s → v < s →
  partA_positive_count seuils (<[Q n := PInt s]> r)
  = partA_positive_count seuils (<[Q n := PInt v]> r) + 1.
Proof.
  intros Hn Hs Hv. apply (compte_un_de_plus _ _ _ n).
  - apply NoDup_seq.
  - apply elem_of_seq. lia.
  - intros m _ Hm. unfold positif_a. rewrite !valeur_insert.
    by rewrite !decide_False by congruence.
  - unfold positif_a. rewrite Hs, valeur_insert, decide_True by done.
    apply bool_decide_eq_true. lia.
  - unfold positif_a. rewrite Hs, valeur_insert, decide_True by done.
    apply bool_decide_eq_false. lia.
Qed.

Lemma partB_positive_count_un_de_plus r n v :
  (7 ≤ n ≤ 18)%nat → v < 3 →
  partB_positive_count (<[Q n := PInt 3]> r)
  = partB_positive_count (<[Q n := PInt v]> r) + 1.
Proof.
  intros Hn Hv. apply (compte_un_de_plus _ _ _ n).
  - apply NoDup_seq.
  - apply elem_of_seq. lia.
  - intros m _ Hm. unfold positif_b. rewrite !valeur_insert.
    by rewrite !decide_False by congruence.
  - unfold positif_b. rewrite valeur_insert, decide_True by done.
    apply bool_decide_eq_true. lia.
  - unfold positif_b. rewrite valeur_insert, decide_True by done.
    apply bool_decide_eq_false. lia.
Qed.

(** C4. The thresholds are inclusive in both parts. For an item [n] of 1..6
    with configured threshold [s], answering exactly [s] counts one more
    Part A positive than answering any [v < s]; for an item [n] of 7..18,
    answering exactly 3 counts one more Part B positive than answering any
    [v < 3]. The other items are the same on both sides. *)
Theorem seuils_inclusifs r cfg :
  entiers r = true → (6 ≤ length (seuils_a cfg))%nat →
  (∀ n s, (1 ≤ n ≤ 6)%nat → seuils_a cfg !! (n - 1)%nat = Some s →
     ∃ sc_egal, calculer_score_asrs (<[Q n := PInt s]> r) cfg = Ok sc_egal
       ∧ ∀ v, v < s →
           ∃ sc_moins, calculer_score_asrs (<[Q n := PInt v]> r) cfg = Ok sc_moins
             ∧ items_positifs_a sc_egal = items_positifs_a sc_moins + 1)
  ∧ (∀ n, (7 ≤ n ≤ 18)%nat →
     ∃ sc_egal, calculer_score_asrs (<[Q n := PInt 3]> r) cfg = Ok sc_egal
       ∧ ∀ v, v < 3 →
           ∃ sc_moins, calculer_score_asrs (<[Q n := PInt v]> r) cfg = Ok sc_moins
             ∧ items_positifs_b sc_egal = items_positifs_b sc_moins + 1).
Proof.
  intros Hr Hs. split.
  - intros n s Hn Hsn. eexists. split.
    { apply calculer_score_asrs_rapport; [by apply entiers_insert|done]. }
    intros v Hv. eexists. split.
    { apply calculer_score_asrs_rapport; [by apply entiers_insert|done]. }
    cbn [rapport items_positifs_a].
    by apply partA_positive_count_un_de_plus.
  - intros n Hn. eexists. split.
    { apply calculer_score_asrs_rapport; [by apply entiers_insert|done]. }
    intros v Hv. eexists. split.
    { apply calculer_score_asrs_rapport; [by apply entiers_insert|done]. }
    cbn [rapport items_positifs_b].
    by apply partB_positive_count_un_de_plus.
Qed.

Lemma seuils_inclusifs_witness :
  (∃ sc_egal, calculer_score_asrs (<[Q 2 := PInt 3]> tout_0) config_defaut
              = Ok sc_egal
     ∧ ∀ v, v < 3 →
         ∃ sc_moins, calculer_score_asrs (<[Q 2 := PInt v]> tout_0) config_defaut
                     = Ok sc_moins
           ∧ items_positifs_a sc_egal = items_positifs_a sc_moins + 1)
  ∧ (∃ sc_egal, calculer_score_asrs (<[Q 7 := PInt 3]> tout_0) config_defaut
                = Ok sc_egal
     ∧ ∀ v, v < 3 →
         ∃ sc_moins, calculer_score_asrs (<[Q 7 := PInt v]> tout_0) config_defaut
                     = Ok sc_moins
           ∧ items_positifs_b sc_egal = items_positifs_b sc_moins + 1).
Proof.
  destruct (seuils_inclusifs tout_0 config_defaut) as [Ha Hb].
  - vm_compute. reflexivity.
  - simpl. lia.
  - split.
    + apply (Ha 2%nat 3); [lia|reflexivity].
    + apply (Hb 7%nat). lia.
Defined.

(** C4 on the example of the specification: threshold 3 (item 2 by default),
    answer 3 is positive, answer 2 is not. *)
Example seuil_3_reponse_3_et_2 :
  items_positifs_a <$> calculer_score_asrs (<[Q 2 := PInt 3]> tout_0) config_defaut
  = Ok 1
  ∧ items_positifs_a <$> calculer_score_asrs (<[Q 2 := PInt 2]> tout_0) config_defaut
    = Ok 0
  ∧ items_positifs_b <$> calculer_score_asrs (<[Q 7 := PInt 3]> tout_0) config_defaut
    = Ok 1
  ∧ items_positifs_b <$> calculer_score_asrs (<[Q 7 := PInt 2]> tout_0) config_defaut
    = Ok 0.
Proof. vm_compute. done. Qed.

(** C5. Without the key [seuils_partie_a] in the configuration the
    calculator counts the Part A positives against the thresholds
    [2, 3, 2, 2, 3, 3]; with the key, against the configured thresholds. *)
Theorem seuils_partie_a_defaut r cfg :
  entiers r = true → (6 ≤ length (seuils_a cfg))%nat →
  seuils_a cfg = match seuils_partie_a cfg with
                 | None => [2; 3; 2; 2; 3; 3]
                 | Some configures => configures
                 end
  ∧ calculer_score_asrs r cfg = Ok (rapport (seuils_a cfg) r)
  ∧ items_positifs_a <$> calculer_score_asrs r cfg
    = Ok (partA_positive_count (seuils_a cfg) r).
Proof.
  intros Hr Hs. split; [|split].
  - unfold seuils_a. by destruct (seuils_partie_a cfg).
  - by apply calculer_score_asrs_rapport.
  - by rewrite calculer_score_asrs_rapport.
Qed.

Lemma seuils_partie_a_defaut_witness :
  seuils_a config_defaut = [2; 3; 2; 2; 3; 3]
  ∧ calculer_score_asrs trois_positifs config_defaut
    = Ok (rapport (seuils_a config_defaut) trois_positifs)
  ∧ items_positifs_a <$> calculer_score_asrs trois_positifs config_defaut
    = Ok (partA_positive_count (seuils_a config_defaut) trois_positifs).
Proof.
  apply (seuils_partie_a_defaut trois_positifs config_defaut).
  - vm_compute. reflexivity.
  - simpl. lia.
Defined.

(** The same answers under the default and under configured thresholds. *)
Example seuils_configures_utilises :
  items_positifs_a <$> calculer_score_asrs trois_positifs config_defaut = Ok 3
  ∧ items_positifs_a <$> calculer_score_asrs trois_positifs config_seuils_1 = Ok 4.
Proof. vm_compute. done. Qed.

Lemma boucle_a_ext r1 r2 seuils acc i :
  r1 !! Q (i + 1) = r2 !! Q (i + 1) →
  boucle_a r1 seuils acc i = boucle_a r2 seuils acc i.
Proof. intros H. unfold boucle_a, dict_get. by rewrite H. Qed.

Lemma boucle_b_ext r1 r2 acc i :
  r1 !! Q (i + 1) = r2 !! Q (i + 1) →
  boucle_b r1 acc i = boucle_b r2 acc i.
Proof. intros H. unfold boucle_b, dict_get. by rewrite H. Qed.

(** The calculator reads [responses] at the 18 item keys only. *)
Lemma calculer_score_asrs_ext r1 r2 cfg :
  (∀ n, (1 ≤ n ≤ 18)%nat → dict_get r1 (Q n) (PInt 0) = dict_get r2 (Q n) (PInt 0)) →
  calculer_score_asrs r1 cfg = calculer_score_asrs r2 cfg.
Proof.
  intros H. unfold calculer_score_asrs.
  rewrite (for_each_ext (boucle_a r1 (seuils_a cfg)) (boucle_a r2 (seuils_a cfg))).
  2:{ intros i s Hi%elem_of_seq. unfold boucle_a. rewrite H; [done|lia]. }
  destruct (for_each (boucle_a r2 _) _ _) as [[sa pa]|e]; [|done].
  cbn [mbind result_bind].
  rewrite (for_each_ext (boucle_b r1) (boucle_b r2)).
  2:{ intros i s Hi%elem_of_seq. unfold boucle_b. rewrite H; [done|simpl in Hi; lia]. }
  done.
Qed.

(** The calculator reads the configuration at the Part A thresholds only. *)
Lemma calculer_score_asrs_memes_items r1 r2 cfg1 cfg2 :
  (∀ n, (1 ≤ n ≤ 18)%nat → r1 !! Q n = r2 !! Q n) →
  seuils_partie_a cfg1 = seuils_partie_a cfg2 →
  calculer_score_asrs r1 cfg1 = calculer_score_asrs r2 cfg2.
Proof.
  intros Hr Hc. rewrite (calculer_score_asrs_ext r1 r2).
  2:{ intros n Hn. unfold dict_get. by rewrite Hr. }
  unfold calculer_score_asrs, seuils_a. by rewrite Hc.
Qed.

(** What [combler] leaves at an item key: the entry that was there, or 0. *)
Lemma combler_lookup (r : gmap string pyval) l n :
  foldr combler_item r l !! Q n
  = match r !! Q n with
    | Some v => Some v
    | None => if bool_decide (n ∈ l) then Some (PInt 0) else None
    end.
Proof.
  induction l as [|k l IH]; cbn [foldr].
  - by destruct (r !! Q n).
  - set (m := foldr _ r l) in *. unfold combler_item.
    destruct (decide (k = n)) as [->|Hkn].
    + rewrite bool_decide_eq_true_2 by left.
      destruct (m !! Q n) as [v|] eqn:Hm.
      * rewrite Hm. rewrite IH in Hm.
        destruct (r !! Q n); [congruence|]. case_bool_decide; congruence.
      * rewrite lookup_insert_eq. rewrite IH in Hm.
        destruct (r !! Q n); [congruence|done].
    + assert (m !! Q n = (match m !! Q k with
                          | None => <[Q k := PInt 0]> m
                          | Some _ => m
                          end) !! Q n) as <-.
      { destruct (m !! Q k); [done|]. rewrite lookup_insert_ne; [done|].
        intros HQ. by apply Q_inj in HQ. }
      rewrite IH. destruct (r !! Q n); [done|].
      apply (f_equal (λ b : bool, if b then Some (PInt 0) else None)).
      apply bool_decide_ext. rewrite elem_of_cons. intuition congruence.
Qed.

Lemma combler_dict_get r n :
  (1 ≤ n ≤ 18)%nat → dict_get (combler r) (Q n) (PInt 0) = dict_get r (Q n) (PInt 0).
Proof.
  intros Hn. unfold dict_get, combler. rewrite combler_lookup.
  destruct (r !! Q n); [done|].
  rewrite bool_decide_eq_true_2; [done|]. apply elem_of_seq. lia.
Qed.

Lemma combler_complet r : entiers r = true → complet (combler r) = true.
Proof.
  intros Hr. unfold complet. apply forallb_forall. intros n Hn%in_seq.
  assert (lisible r n = true) as Hl by (apply entiers_lisible; [done|lia]).
  unfold present, lisible, combler in *. rewrite combler_lookup.
  destruct (r !! Q n) as [[]|]; try done.
  rewrite bool_decide_eq_true_2; [done|]. apply elem_of_seq. lia.
Qed.

(** C10. The calculator is total on integer items: whatever items are
    absent, negative or above the scale, and for every configuration with at
    least six Part A thresholds, it returns a report; the report is the one
    of the response set in which every absent item is given the value 0, and
    its [score_max] is 72 whatever the configured scale. *)
Theorem calculer_score_asrs_total r cfg :
  entiers r = true → (6 ≤ length (seuils_a cfg))%nat →
  ∃ sc, calculer_score_asrs r cfg = Ok sc
      ∧ score_max sc = 72
      ∧ complet (combler r) = true
      ∧ calculer_score_asrs (combler r) cfg = Ok sc.
Proof.
  intros Hr Hs. exists (rapport (seuils_a cfg) r).
  assert (calculer_score_asrs r cfg = Ok (rapport (seuils_a cfg) r)) as Hc
    by by apply calculer_score_asrs_rapport.
  repeat split; [done|by apply combler_complet|].
  rewrite <- Hc. apply calculer_score_asrs_ext.
  intros n Hn. by apply combler_dict_get.
Qed.

Lemma calculer_score_asrs_total_witness :
  ∃ sc, calculer_score_asrs (delete (Q 3) q1_hors_echelle) config_seuils_1 = Ok sc
      ∧ score_max sc = 72
      ∧ complet (combler (delete (Q 3) q1_hors_echelle)) = true
      ∧ calculer_score_asrs (combler (delete (Q 3) q1_hors_echelle)) config_seuils_1
        = Ok sc.
Proof.
  apply (calculer_score_asrs_total (delete (Q 3) q1_hors_echelle) config_seuils_1).
  - vm_compute. reflexivity.
  - simpl. lia.
Defined.

(** With fewer than six thresholds the sixth lookup raises. *)
Example cinq_seuils_IndexError :
  calculer_score_asrs tout_0 config_cinq_seuils = Raise IndexError.
Proof. vm_compute. reflexivity. Qed.

(** An item holding text instead of a number raises. *)
Example item_texte_TypeError :
  calculer_score_asrs (<[Q 9 := PStr "3"]> tout_0) config_defaut = Raise TypeError.
Proof. vm_compute. reflexivity. Qed.

(** C2, as the specification states it, fails on the code: no validation
    error is raised for an absent item, a negative value or a value above
    the scale [0..4]; a report is returned in each case. *)
Lemma validation_absente :
  sans_q7 !! Q 7 = None
  ∧ calculer_score_asrs sans_q7 config_defaut
    = Ok {| score_total := 68; score_max := 72;
            score_partie_a := 24; score_partie_b := 44;
            items_positifs_a := 6; items_positifs_b := 11;
            screening_positif := true |}
  ∧ q1_negatif !! Q 1 = Some (PInt (-1))
  ∧ calculer_score_asrs q1_negatif config_defaut
    = Ok {| score_total := -1; score_max := 72;
            score_partie_a := -1; score_partie_b := 0;
            items_positifs_a := 0; items_positifs_b := 0;
            screening_positif := false |}
  ∧ q1_hors_echelle !! Q 1 = Some (PInt 9)
  ∧ Z.of_nat (length (echelle_likert config_defaut)) - 1 = 4
  ∧ calculer_score_asrs q1_hors_echelle config_defaut
    = Ok {| score_total := 9; score_max := 72;
            score_partie_a := 9; score_partie_b := 0;
            items_positifs_a := 1; items_positifs_b := 0;
            screening_positif := false |}.
Proof. vm_compute. done. Qed.

(** C2, amended. The calculator validates nothing: on items that are each
    absent or an integer (negative and over-range values included) it
    returns a report whose total is the sum of the item values, an absent
    item counting for 0; scoring with item [n] absent is scoring with item
    [n] set to 0. *)
Theorem calculer_score_asrs_sans_validation r cfg :
  entiers r = true → (6 ≤ length (seuils_a cfg))%nat →
  (∃ sc, calculer_score_asrs r cfg = Ok sc
       ∧ score_total sc = somme_items r (seq 1 18))
  ∧ (∀ n, (1 ≤ n ≤ 18)%nat → r !! Q n = None →
       valeur r n = 0
       ∧ calculer_score_asrs r cfg = calculer_score_asrs (<[Q n := PInt 0]> r) cfg).
Proof.
  intros Hr Hs. split.
  - eexists. split; [by apply calculer_score_asrs_rapport|].
    cbn [rapport score_total]. rewrite items_a_b, somme_items_app. done.
  - intros n Hn Hnone. split; [unfold valeur; by rewrite Hnone|].
    apply calculer_score_asrs_ext. intros m Hm. unfold dict_get.
    destruct (decide (n = m)) as [->|Hnm].
    + by rewrite lookup_insert_eq, Hnone.
    + rewrite lookup_insert_ne; [done|]. intros HQ. by apply Q_inj in HQ.
Qed.

Lemma calculer_score_asrs_sans_validation_witness :
  (∃ sc, calculer_score_asrs sans_q7 config_defaut = Ok sc
       ∧ score_total sc = somme_items sans_q7 (seq 1 18))
  ∧ valeur sans_q7 7 = 0
  ∧ calculer_score_asrs sans_q7 config_defaut
    = calculer_score_asrs (<[Q 7 := PInt 0]> sans_q7) config_defaut.
Proof.
  destruct (calculer_score_asrs_sans_validation sans_q7 config_defaut)
    as [Hok Habs].
  - vm_compute. reflexivity.
  - simpl. lia.
  - split; [exact Hok|]. apply (Habs 7%nat); [lia|]. vm_compute. reflexivity.
Defined.

(** ** The percentage *)

(** The model of integer division agrees with the division of the
    primitive floats where both integers are floats themselves. *)
Example int_truediv_37_72 :
  int_truediv 37 72 = Ok (PrimFloat.div 37 72)
  ∧ int_truediv (-1) 3 = Ok (PrimFloat.div (-1) 3)
  ∧ int_truediv 0 72 = Ok 0%float
  ∧ int_truediv 1 0 = Raise ZeroDivisionError.
Proof. vm_compute. done. Qed.

(** The largest quotient that is still a float, and the first that is not. *)
Example int_truediv_limite :
  int_truediv (2 ^ 1024 - 2 ^ 970 - 1) 1 = Ok 0x1.fffffffffffffp+1023%float
  ∧ int_truediv (2 ^ 1024 - 2 ^ 970) 1 = Raise OverflowError
  ∧ SFdiv prec emax (Z2SF (2 ^ 1024 - 2 ^ 970)) (Z2SF 1) = S754_infinity false.
Proof. vm_compute. done. Qed.

(** [round(x, 1)] on values of CPython: [round(0.25, 1) = 0.2] (a tie, to
    even), [round(0.45, 1) = 0.5] (the float 0.45 lies above the tie),
    [round(2.5, 1) = 2.5], [round(-0.03125, 1) = -0.0]. *)
Example py_round1_exemples :
  py_round1 0.25%float = 0x1.999999999999ap-3%float
  ∧ py_round1 0x1.ccccccccccccdp-2%float = 0.5%float
  ∧ py_round1 2.5%float = 2.5%float
  ∧ py_round1 (-0.03125)%float = (-0)%float.
Proof. vm_compute. done. Qed.

(** The example of the design notes: a total of 37 gives 51.4. *)
Example score_pourcentage_37 :
  score_pourcentage {| score_total := 37; score_max := 72;
                       score_partie_a := 12; score_partie_b := 25;
                       items_positifs_a := 3; items_positifs_b := 4;
                       screening_positif := false |}
  = Ok 0x1.9b33333333333p+5%float.
Proof. vm_compute. reflexivity. Qed.

Lemma tous_a_lookup v r n :
  tous_a v r = true → (1 ≤ n ≤ 18)%nat → r !! Q n = Some (PInt v).
Proof.
  unfold tous_a. rewrite forallb_forall. intros H Hn.
  assert (In n (seq 1 18)) as Hin by (apply in_seq; lia).
  apply H, andb_prop in Hin as [Hp Hv]. apply Z.eqb_eq in Hv.
  unfold present, valeur in *. destruct (r !! Q n) as [[]|]; congruence.
Qed.

(** C6. All 18 items at 4, default thresholds: Part A score 24, Part B
    score 48, total 72, 6 and 12 positives, screening positive, percentage
    100.0. All 18 items at 0: total 0, screening negative, percentage 0.0. *)
Theorem exemples_tout_4_et_tout_0 r4 r0 cfg :
  seuils_partie_a cfg = None → tous_a 4 r4 = true → tous_a 0 r0 = true →
  (∃ sc, calculer_score_asrs r4 cfg = Ok sc
       ∧ sc = {| score_total := 72; score_max := 72;
                 score_partie_a := 24; score_partie_b := 48;
                 items_positifs_a := 6; items_positifs_b := 12;
                 screening_positif := true |}
       ∧ score_pourcentage sc = Ok 100%float)
  ∧ (∃ sc, calculer_score_asrs r0 cfg = Ok sc
         ∧ score_total sc = 0
         ∧ screening_positif sc = false
         ∧ score_pourcentage sc = Ok 0%float).
Proof.
  intros Hc H4 H0. split.
  - rewrite (calculer_score_asrs_memes_items r4 tout_4 cfg config_defaut).
    + eexists. split; [vm_compute; reflexivity|]. split; [done|].
      vm_compute. reflexivity.
    + intros n Hn. rewrite (tous_a_lookup 4 r4 n H4 Hn).
      symmetry. by apply (tous_a_lookup 4 tout_4 n).
    + done.
  - rewrite (calculer_score_asrs_memes_items r0 tout_0 cfg config_defaut).
    + eexists. split; [vm_compute; reflexivity|]. repeat split.
    + intros n Hn. rewrite (tous_a_lookup 0 r0 n H0 Hn).
      symmetry. by apply (tous_a_lookup 0 tout_0 n).
    + done.
Qed.

Lemma exemples_tout_4_et_tout_0_witness :
  (∃ sc, calculer_score_asrs tout_4_et_textes config_autre_echelle = Ok sc
       ∧ sc = {| score_total := 72; score_max := 72;
                 score_partie_a := 24; score_partie_b := 48;
                 items_positifs_a := 6; items_positifs_b := 12;
                 screening_positif := true |}
       ∧ score_pourcentage sc = Ok 100%float)
  ∧ (∃ sc, calculer_score_asrs tout_0 config_autre_echelle = Ok sc
         ∧ score_total sc = 0
         ∧ screening_positif sc = false
         ∧ score_pourcentage sc = Ok 0%float).
Proof.
  apply (exemples_tout_4_et_tout_0 tout_4_et_textes tout_0 config_autre_echelle).
  - reflexivity.
  - vm_compute. reflexivity.
  - vm_compute. reflexivity.
Defined.

(** ** The calculator as a procedure: no effect, one result *)

Section procedure_proprietes.
Context `{Tableur}.

Lemma proc_boucle_a_lit seuils acc i m :
  proc_boucle_a seuils acc i m
  = (m, boucle_a (contenu (mem_responses m)) seuils acc i).
Proof.
  destruct acc as [sa pa].
  unfold proc_boucle_a, boucle_a, proc_bind, responses_get, seuils_index,
    proc_ret, proc_raise.
  destruct (dict_get _ _ _) as [|v|t]; [done| |done].
  destruct (list_index seuils i) as [seuil|e]; [|done].
  cbn [mbind result_bind]. by case_bool_decide.
Qed.

Lemma proc_boucle_b_lit acc i m :
  proc_boucle_b acc i m = (m, boucle_b (contenu (mem_responses m)) acc i).
Proof.
  destruct acc as [sb pb].
  unfold proc_boucle_b, boucle_b, proc_bind, responses_get, proc_ret, proc_raise.
  destruct (dict_get _ _ _) as [|v|t]; [done| |done].
  by case_bool_decide.
Qed.

(** A loop whose body leaves the memory as it is leaves it as it is. *)
Lemma proc_for_lit {S} (corps : S → nat → proc S) (body : S → nat → result S)
    l s m :
  (∀ s i, corps s i m = (m, body s i)) →
  proc_for corps l s m = (m, for_each body l s).
Proof.
  intros Hc. revert s. induction l as [|i l IH]; intros s; [done|].
  cbn [proc_for for_each]. unfold proc_bind. rewrite Hc.
  destruct (body s i) as [s'|e]; [|done]. cbn [mbind result_bind]. apply IH.
Qed.

(** The procedure returns what the function [calculer_score_asrs] gives on
    the content of the two objects, and hands the memory back unchanged. *)
Lemma calculer_score_asrs_proc_lit m :
  calculer_score_asrs_proc m
  = (m, calculer_score_asrs (contenu (mem_responses m)) (mem_config m)).
Proof.
  unfold calculer_score_asrs_proc, calculer_score_asrs, proc_bind at 1,
    config_get_seuils.
  unfold proc_bind at 1.
  rewrite (proc_for_lit _ (boucle_a (contenu (mem_responses m))
                             (seuils_a (mem_config m))))
    by (intros; apply proc_boucle_a_lit).
  destruct (for_each (boucle_a _ _) _ _) as [[sa pa]|e]; [|done].
  cbn [mbind result_bind]. unfold proc_bind.
  rewrite (proc_for_lit _ (boucle_b (contenu (mem_responses m))))
    by (intros; apply proc_boucle_b_lit).
  by destruct (for_each (boucle_b _) _ _) as [[sb pb]|e].
Qed.

(** C8. A call of the calculator changes nothing in the memory of the
    process: not the two dictionaries it is handed, not the session, the page
    or the service. What it returns, a report or an exception, is fixed by
    the content of [responses] and [config]: two calls on identical
    responses and identical configuration return the same report, field by
    field, whatever else the memory holds; so do two calls made one after the
    other on the same objects. *)
Theorem calculer_score_asrs_deterministe m1 m2 :
  mem_responses m1 = mem_responses m2 →
  mem_config m1 = mem_config m2 →
  ∃ r,
    calculer_score_asrs_proc m1 = (m1, r)
    ∧ calculer_score_asrs_proc m2 = (m2, r)
    ∧ deux_appels m1 = (m1, (λ sc, (sc, sc)) <$> r)
    ∧ (∀ sc1 sc2,
         (calculer_score_asrs_proc m1).2 = Ok sc1 →
         (calculer_score_asrs_proc m2).2 = Ok sc2 →
         score_total sc1 = score_total sc2
         ∧ score_max sc1 = score_max sc2
         ∧ score_partie_a sc1 = score_partie_a sc2
         ∧ score_partie_b sc1 = score_partie_b sc2
         ∧ items_positifs_a sc1 = items_positifs_a sc2
         ∧ items_positifs_b sc1 = items_positifs_b sc2
         ∧ screening_positif sc1 = screening_positif sc2).
Proof.
  intros Hr Hc.
  exists (calculer_score_asrs (contenu (mem_responses m1)) (mem_config m1)).
  split; [apply calculer_score_asrs_proc_lit|].
  split; [rewrite Hr, Hc; apply calculer_score_asrs_proc_lit|].
  split.
  - unfold deux_appels, proc_bind. rewrite calculer_score_asrs_proc_lit.
    destruct (calculer_score_asrs _ _) as [sc|e] eqn:Hsc; [|done].
    rewrite calculer_score_asrs_proc_lit, Hsc. done.
  - intros sc1 sc2. rewrite !calculer_score_asrs_proc_lit, Hr, Hc.
    cbn [snd]. intros H1 H2. rewrite H1 in H2. by injection H2 as <-.
Qed.
End procedure_proprietes.

Lemma calculer_score_asrs_deterministe_witness :
  ∃ r,
    calculer_score_asrs_proc memoire_debut = (memoire_debut, r)
    ∧ calculer_score_asrs_proc memoire_suite = (memoire_suite, r)
    ∧ deux_appels memoire_debut = (memoire_debut, (λ sc, (sc, sc)) <$> r)
    ∧ (∀ sc1 sc2,
         (calculer_score_asrs_proc memoire_debut).2 = Ok sc1 →
         (calculer_score_asrs_proc memoire_suite).2 = Ok sc2 →
         score_total sc1 = score_total sc2
         ∧ score_max sc1 = score_max sc2
         ∧ score_partie_a sc1 = score_partie_a sc2
         ∧ score_partie_b sc1 = score_partie_b sc2
         ∧ items_positifs_a sc1 = items_positifs_a sc2
         ∧ items_positifs_b sc1 = items_positifs_b sc2
         ∧ screening_positif sc1 = screening_positif sc2).
Proof.
  apply (@calculer_score_asrs_deterministe tableur_memoire
           memoire_debut memoire_suite).
  - reflexivity.
  - reflexivity.
Defined.

(** The two sample states differ, and the call returns the same report in
    both: every item at 3 gives a total of 54. *)
Example memes_scores_autre_memoire :
  memoire_debut ≠ memoire_suite
  ∧ (calculer_score_asrs_proc memoire_debut).2 = Ok scores_tout_3
  ∧ (calculer_score_asrs_proc memoire_suite).2 = Ok scores_tout_3.
Proof.
  split; [|split; reflexivity].
  intros Heq. apply (f_equal (λ m, ecran (mem_monde m))) in Heq. discriminate.
Qed.

(** ** The legend *)



(** The interpretation shown does not follow the total: four answers at 4
    and the rest at 0 give the total 16 and the message of marked symptoms;
    the answers 1, 2, 1, 1, 2, 2 to the first six questions and 4 to the
    others give the total 57 and the message of light symptoms. *)
Example interpretation_sans_total :
  let marque :=
    {| radio := λ i, if bool_decide (i < 4)%nat then PInt 4 else PInt 0;
       slider_satisfaction := 5; slider_amelioration := "Pas changés";
       text_commentaires := ""; submitted := true |} in
  let leger :=
    {| radio := λ i, match i with
                     | 0%nat | 2%nat | 3%nat => PInt 1
                     | 1%nat | 4%nat | 5%nat => PInt 2
                     | _ => PInt 4
                     end;
       slider_satisfaction := 5; slider_amelioration := "Pas changés";
       text_commentaires := ""; submitted := true |} in
  page_de marque !! 3%nat
  = Some (st_metric "Score total"
            [Val (CVal (PInt 16)); Lit "/"; Val (CVal (PInt 72))])
  ∧ page_de marque !! 8%nat
    = Some (st_warning [Lit "**Vos symptômes sont marqués** (";
                        Val (CVal (PInt 4)); Lit "/6)"])
  ∧ page_de leger !! 3%nat
    = Some (st_metric "Score total"
              [Val (CVal (PInt 57)); Lit "/"; Val (CVal (PInt 72))])
  ∧ page_de leger !! 8%nat
    = Some (st_success [Lit "**Vos symptômes sont légers à modérés** (";
                        Val (CVal (PInt 0)); Lit "/6)"]).
Proof. repeat split; reflexivity. Qed.

(** ** Dictionaries in insertion order *)

Lemma contenu_odict_set {V} k (v : V) d :
  contenu (odict_set k v d) = <[k := v]> (contenu d).
Proof.
  unfold contenu. induction d as [|[k' v'] d IH]; [done|].
  cbn [odict_set]. case_decide as Hk.
  - subst k'. cbn [list_to_map foldr curry fst snd]. by rewrite insert_insert_eq.
  - cbn [list_to_map foldr curry fst snd] in *. rewrite IH.
    by apply insert_insert_ne.
Qed.

Lemma odict_keys_set {V} k (v : V) d :
  odict_keys (odict_set k v d)
  = if bool_decide (k ∈ odict_keys d) then odict_keys d else odict_keys d ++ [k].
Proof.
  unfold odict_keys. induction d as [|[k' v'] d IH]; [done|].
  cbn [odict_set]. destruct (decide (k' = k)) as [->|Hk].
  - rewrite bool_decide_eq_true_2 by (cbn; left). done.
  - cbn [fmap list_fmap fst] in *. rewrite IH.
    destruct (decide (k ∈ d.*1)) as [Hin|Hin].
    + rewrite !bool_decide_eq_true_2; [done|by right|done].
    + rewrite !bool_decide_eq_false_2; [done| |done].
      rewrite elem_of_cons. intros [->|?]; done.
Qed.

Lemma odict_set_NoDup {V} k (v : V) d :
  NoDup (odict_keys d) → NoDup (odict_keys (odict_set k v d)).
Proof.
  intros Hd. rewrite odict_keys_set. case_bool_decide as Hin; [done|].
  apply NoDup_app. split; [done|]. split; [|apply NoDup_singleton].
  intros x Hx ->%list_elem_of_singleton. done.
Qed.

Lemma contenu_lookup_None {V} (d : odict V) k :
  contenu d !! k = None ↔ k ∉ odict_keys d.
Proof. symmetry. apply not_elem_of_list_to_map. Qed.

Lemma contenu_odict_update_absent {V} (d other : odict V) k :
  k ∉ odict_keys other →
  contenu (odict_update d other) !! k = contenu d !! k.
Proof.
  unfold odict_update. revert d.
  induction other as [|[k' v'] other IH]; intros d Hk; [done|].
  cbn [foldl fst snd]. unfold odict_keys in Hk. cbn in Hk.
  apply not_elem_of_cons in Hk as [Hne Hk].
  rewrite IH by done. rewrite contenu_odict_set. by apply lookup_insert_ne.
Qed.

(** ** The submission *)

Section soumission_proprietes.
Context `{Tableur}.

(** [connect_to_gsheet] never raises. It returns a spreadsheet, without a
    message, only when the secrets hold credentials and a URL and the
    service let the client in and opened the sheet; otherwise it returns
    [None] after one warning. *)
Lemma connect_to_gsheet_spec st_secrets w :
  ∃ w' o msgs,
    connect_to_gsheet st_secrets w = (w', Ok o)
    ∧ ecran w' = ecran w ++ msgs
    ∧ (o = None → ∃ m, msgs = [st_warning m])
    ∧ (∀ sp, o = Some sp →
         msgs = []
         ∧ ∃ credentials url cl n,
             st_secrets = Ok {| gsheet_credentials := Some credentials;
                                gsheet_url := Some url |}
             ∧ url ≠ ""
             ∧ authorize credentials (distant w) = (n, Ok cl)
             ∧ open_by_url cl url n = (distant w', Ok sp)).
Proof.
  unfold connect_to_gsheet, try_except, prog_bind, lift, appel, afficher, prog_ret.
  destruct st_secrets as [[[c|] url]|e]; cbn.
  - destruct (authorize c (distant w)) as [n [cl|e]] eqn:Ha; cbn.
    + case_bool_decide as Hu; cbn.
      * destruct (open_by_url cl _ n) as [n' [sp|e]] eqn:Ho; cbn.
        -- exists {| ecran := ecran w; distant := n' |}, (Some sp), [].
           split; [done|]. split; [by rewrite app_nil_r|]. split; [done|].
           intros sp' [= <-]. split; [done|].
           destruct url as [u|]; [|done]. by exists c, u, cl, n.
        -- eexists _, None, _. split; [reflexivity|]. split; [reflexivity|].
           split; [by eexists|done].
      * eexists _, None, _. split; [reflexivity|]. split; [reflexivity|].
        split; [by eexists|done].
    + eexists _, None, _. split; [reflexivity|]. split; [reflexivity|].
      split; [by eexists|done].
  - eexists _, None, _. split; [reflexivity|]. split; [reflexivity|].
    split; [by eexists|done].
  - eexists _, None, _. split; [reflexivity|]. split; [reflexivity|].
    split; [by eexists|done].
Qed.

(** [save_to_gsheet] never raises. It returns [True], without a message,
    only when its last call to the service appended the row of values;
    every exception of the service becomes the result [False] and one
    [st.error]. *)
Lemma save_to_gsheet_spec sp worksheet_name data w :
  ∃ w' success msgs,
    save_to_gsheet sp worksheet_name data w = (w', Ok success)
    ∧ ecran w' = ecran w ++ msgs
    ∧ (success = true →
       msgs = []
       ∧ ∃ ws n, append_row ws (odict_values data) n = (distant w', Ok ()))
    ∧ (success = false →
       ∃ e, msgs = [st_error [Lit "❌ Erreur lors de la sauvegarde: "; StrExn e]]).
Proof.
  unfold save_to_gsheet, try_except, prog_bind, lift, appel, afficher, prog_ret.
  destruct (sp_worksheet sp worksheet_name (distant w)) as [n [ws|e]]; cbn.
  - destruct (append_row ws (odict_values data) n) as [n' [[]|e]] eqn:Ha; cbn.
    + eexists _, true, []. split; [reflexivity|].
      split; [symmetry; apply app_nil_r|]. split; [|done].
      intros _. split; [done|]. eexists _, _. exact Ha.
    + eexists _, false, _. split; [reflexivity|]. split; [reflexivity|].
      split; [done|]. intros _. by eexists.
  - destruct (add_worksheet sp worksheet_name n) as [n1 [ws|e1]]; cbn.
    + destruct (append_row ws (_ <$> _) n1) as [n2 [[]|e2]]; cbn.
      * destruct (append_row ws (odict_values data) n2) as [n' [[]|e3]] eqn:Ha;
          cbn.
        -- eexists _, true, []. split; [reflexivity|].
           split; [symmetry; apply app_nil_r|]. split; [|done].
           intros _. split; [done|]. eexists _, _. exact Ha.
        -- eexists _, false, _. split; [reflexivity|]. split; [reflexivity|].
           split; [done|]. intros _. by eexists.
      * eexists _, false, _. split; [reflexivity|]. split; [reflexivity|].
        split; [done|]. intros _. by eexists.
    + eexists _, false, _. split; [reflexivity|]. split; [reflexivity|].
      split; [done|]. intros _. by eexists.
Qed.

(** The attempt to save never raises. It ends on the success message only
    when the service let the client in, opened the sheet and appended the
    row of values; when the write failed it ends on the error and a warning;
    without a spreadsheet it ends on one warning. *)
Lemma tenter_sauvegarde_spec st_secrets questionnaire_type save_data w :
  ∃ w' issue msgs,
    tenter_sauvegarde st_secrets questionnaire_type save_data w = (w', Ok issue)
    ∧ ecran w' = ecran w ++ msgs
    ∧ (issue = Some true →
       msgs = [st_success [Lit "✅ Réponses enregistrées avec succès !"]]
       ∧ (∃ credentials url cl n n' sp,
            st_secrets = Ok {| gsheet_credentials := Some credentials;
                               gsheet_url := Some url |}
            ∧ url ≠ ""
            ∧ authorize credentials (distant w) = (n, Ok cl)
            ∧ open_by_url cl url n = (n', Ok sp))
       ∧ ∃ ws n, append_row ws (odict_values save_data) n = (distant w', Ok ()))
    ∧ (issue = Some false →
       ∃ e, msgs = [st_error [Lit "❌ Erreur lors de la sauvegarde: "; StrExn e];
                    st_warning [Lit "⚠️ Erreur d'enregistrement, mais vos réponses sont affichées ci-dessous"]])
    ∧ (issue = None → ∃ m, msgs = [st_warning m]).
Proof.
  unfold tenter_sauvegarde, prog_bind.
  destruct (connect_to_gsheet_spec st_secrets w)
    as (w1 & o & m1 & -> & He1 & Hnone & Hsome).
  destruct o as [sp|].
  - destruct (Hsome sp eq_refl) as (-> & c & url & cl & n & Hs & Hu & Ha & Ho).
    rewrite app_nil_r in He1.
    destruct (save_to_gsheet_spec sp (upper questionnaire_type) save_data w1)
      as (w2 & success & m2 & -> & He2 & Hvrai & Hfaux).
    destruct success; unfold afficher, prog_ret; cbn.
    + destruct (Hvrai eq_refl) as (-> & ws & n0 & Happ).
      eexists _, _, _. split; [reflexivity|]. cbn [ecran distant]. split.
      * rewrite He2, He1, app_nil_r. reflexivity.
      * split; [|done]. intros _. split; [done|]. split.
        -- by exists c, url, cl, n, (distant w1), sp.
        -- by exists ws, n0.
    + destruct (Hfaux eq_refl) as (e & ->).
      eexists _, _, _. split; [reflexivity|]. cbn [ecran distant]. split.
      * rewrite He2, He1, <- app_assoc. reflexivity.
      * split; [done|]. split; [|done]. intros _. by exists e.
  - eexists _, _, _. split; [reflexivity|]. split; [exact He1|].
    split; [done|]. split; [done|]. intros _. by apply Hnone.
Qed.
End soumission_proprietes.

(** What one question of the form adds to [responses]. *)
Lemma boucle_question_contenu questions s i r0 r :
  boucle_question questions s r0 i = Ok r →
  ∃ question,
    questions !! i = Some question
    ∧ contenu r
      = <[Q (i + 1) +:+ "_text" := PStr question]>
          (<[Q (i + 1) := radio s i]> (contenu r0)).
Proof.
  unfold boucle_question, list_index.
  destruct (questions !! i) as [q|]; [|done]. cbn [mbind result_bind].
  intros [= <-]. exists q. split; [done|]. by rewrite !contenu_odict_set.
Qed.

(** The keys that the form writes start with [Q], apart from three. *)
Lemma boucle_question_cles questions s i r0 r k :
  boucle_question questions s r0 i = Ok r →
  is_Some (contenu r !! k) → is_Some (contenu r0 !! k) ∨ ∃ k', k = "Q" +:+ k'.
Proof.
  intros (q & _ & ->)%boucle_question_contenu Hin.
  rewrite lookup_insert in Hin.
  case_decide as H1; [right; subst k; eexists; reflexivity|].
  rewrite lookup_insert in Hin.
  case_decide as H2; [right; subst k; eexists; reflexivity|].
  by left.
Qed.

Lemma for_each_boucle_question_cles questions s l r0 r k :
  for_each (boucle_question questions s) l r0 = Ok r →
  is_Some (contenu r !! k) → is_Some (contenu r0 !! k) ∨ ∃ k', k = "Q" +:+ k'.
Proof.
  revert r0. induction l as [|i l IH]; intros r0; cbn [for_each].
  - intros [= ->]. by left.
  - destruct (boucle_question questions s r0 i) as [r1|] eqn:Hb; [|done].
    cbn [mbind result_bind]. intros Hl Hk.
    destruct (IH _ Hl Hk) as [Hin|Hq]; [|by right].
    by apply (boucle_question_cles _ _ _ _ _ _ Hb).
Qed.

Lemma collecter_responses_cles cfg questionnaire_type s responses k :
  collecter_responses cfg questionnaire_type s = Ok responses →
  is_Some (contenu responses !! k) →
  (∃ k', k = "Q" +:+ k')
  ∨ k = "satisfaction" ∨ k = "amelioration_percue" ∨ k = "commentaires".
Proof.
  unfold collecter_responses.
  destruct (for_each _ (range 0 6) _) as [r1|] eqn:H1; [|done].
  cbn [mbind result_bind].
  destruct (for_each _ (range 6 18) _) as [r2|] eqn:H2; [|done].
  cbn [mbind result_bind].
  assert (is_Some (contenu r2 !! k) → ∃ k', k = "Q" +:+ k') as Hr2.
  { intros Hk. destruct (for_each_boucle_question_cles _ _ _ _ _ k H2 Hk) as [Hk1|]; [|done].
    destruct (for_each_boucle_question_cles _ _ _ _ _ k H1 Hk1) as [Hk0|]; [|done].
    unfold contenu in Hk0. cbn in Hk0. rewrite lookup_empty in Hk0.
    by destruct Hk0. }
  destruct (_ || _).
  - intros [= <-] Hk. rewrite contenu_odict_set in Hk.
    rewrite lookup_insert in Hk. case_decide; [by auto|].
    case_bool_decide.
    + rewrite contenu_odict_set in Hk.
      rewrite lookup_insert in Hk. case_decide; [by auto|].
      rewrite contenu_odict_set in Hk.
      rewrite lookup_insert in Hk. case_decide; [by auto|]. left. by apply Hr2.
    + rewrite contenu_odict_set in Hk.
      rewrite lookup_insert in Hk. case_decide; [by auto|]. left. by apply Hr2.
  - intros [= <-] Hk. left. by apply Hr2.
Qed.

Lemma odict_keys_CVal (responses : odict pyval) :
  odict_keys (prod_map id CVal <$> responses) = odict_keys responses.
Proof.
  unfold odict_keys. rewrite <- list_fmap_compose.
  by apply list_fmap_ext; intros ? [].
Qed.

(** A key that the form does not write keeps, in [save_data], the value of
    the dictionary display. *)
Lemma save_data_de_champ questionnaire_type responses session_state now sc save_data k :
  save_data_de questionnaire_type responses session_state now sc = Ok save_data →
  contenu responses !! k = None →
  ∃ pct, score_pourcentage sc = Ok pct
    ∧ contenu save_data !! k
      = contenu (champs_de questionnaire_type session_state now sc pct) !! k.
Proof.
  unfold save_data_de. destruct (score_pourcentage sc) as [pct|]; [|done].
  cbn [mbind result_bind]. intros [= <-] Hk. exists pct. split; [done|].
  apply contenu_odict_update_absent.
  rewrite odict_keys_CVal. by apply contenu_lookup_None.
Qed.

(** A key that does not start with [Q] and is none of the three other keys
    of the form is absent from [responses]. *)
Lemma collecter_responses_absent cfg questionnaire_type s responses k :
  collecter_responses cfg questionnaire_type s = Ok responses →
  (∀ k', k ≠ "Q" +:+ k') →
  k ≠ "satisfaction" → k ≠ "amelioration_percue" → k ≠ "commentaires" →
  contenu responses !! k = None.
Proof.
  intros Hc HQ H1 H2 H3. apply eq_None_not_Some. intros Hk.
  destruct (collecter_responses_cles _ _ _ _ k Hc Hk) as [[k' ->]|[->|[->| ->]]];
    [by apply (HQ k')|done..].
Qed.

Local Ltac champ_du_record Hsd Hc Hpct :=
  let pct := fresh in let Hp := fresh in let Hl := fresh in
  match goal with
  | |- _ !! ?k = _ =>
      destruct (save_data_de_champ _ _ _ _ _ _ k Hsd) as (pct & Hp & Hl);
      [ apply (collecter_responses_absent _ _ _ _ k Hc); [intros k'|..];
        discriminate
      | rewrite Hl; rewrite Hpct in Hp; injection Hp as <-; reflexivity ]
  end.

Lemma resultats_scores responses sc save_data pct :
  contenu save_data !! "score_pourcentage" = Some (CFloat pct) →
  st_metric "Score total"
    [Val (CVal (PInt (score_total sc))); Lit "/"; Val (CVal (PInt (score_max sc)))]
  ∈ resultats responses sc save_data
  ∧ st_caption [Val (CFloat pct); Lit "%"] ∈ resultats responses sc save_data
  ∧ st_metric "Partie A (dépistage)"
      [Val (CVal (PInt (items_positifs_a sc))); Lit "/6"]
    ∈ resultats responses sc save_data
  ∧ (if screening_positif sc
     then st_warning [Lit "**Vos symptômes sont marqués** (";
                      Val (CVal (PInt (items_positifs_a sc))); Lit "/6)"]
     else st_success [Lit "**Vos symptômes sont légers à modérés** (";
                      Val (CVal (PInt (items_positifs_a sc))); Lit "/6)"])
    ∈ resultats responses sc save_data.
Proof.
  intros Hp. unfold resultats.
  rewrite (lookup_total_correct _ _ _ Hp).
  repeat split; rewrite ?elem_of_app, ?elem_of_cons; auto 10.
Qed.

(** C7. A submission whose scores were computed builds its record from the
    scores alone, before the attempt to save: the record carries the fields
    of the report unchanged and the percentage. Then, for every spreadsheet
    service and every state of the secrets, the attempt to save never
    raises: it ends on the success message only when the service let the
    client in, opened the sheet and appended the values of this record; on
    a write that failed it shows the error and a warning; without a
    spreadsheet it shows one warning. A service on which every write
    raises never gives the success message. In all cases the page then
    shows the results, the total, the percentage and the Part A count of the
    report, and [show_questionnaire] returns. *)
Theorem persistance_isolee cfg questionnaire_type s session_state now
    responses sc pct :
  collecter_responses cfg questionnaire_type s = Ok responses →
  calculer_score_asrs (contenu responses) cfg = Ok sc →
  score_pourcentage sc = Ok pct →
  ∃ save_data,
    save_data_de questionnaire_type responses session_state now sc = Ok save_data
    ∧ contenu save_data !! "score_total" = Some (CVal (PInt (score_total sc)))
    ∧ contenu save_data !! "score_max" = Some (CVal (PInt (score_max sc)))
    ∧ contenu save_data !! "score_partie_a"
      = Some (CVal (PInt (score_partie_a sc)))
    ∧ contenu save_data !! "score_partie_b"
      = Some (CVal (PInt (score_partie_b sc)))
    ∧ contenu save_data !! "items_positifs_a"
      = Some (CVal (PInt (items_positifs_a sc)))
    ∧ contenu save_data !! "items_positifs_b"
      = Some (CVal (PInt (items_positifs_b sc)))
    ∧ contenu save_data !! "screening_positif"
      = Some (CBool (screening_positif sc))
    ∧ contenu save_data !! "score_pourcentage" = Some (CFloat pct)
    ∧ st_metric "Score total"
        [Val (CVal (PInt (score_total sc))); Lit "/";
         Val (CVal (PInt (score_max sc)))]
      ∈ resultats responses sc save_data
    ∧ st_caption [Val (CFloat pct); Lit "%"] ∈ resultats responses sc save_data
    ∧ st_metric "Partie A (dépistage)"
        [Val (CVal (PInt (items_positifs_a sc))); Lit "/6"]
      ∈ resultats responses sc save_data
    ∧ ∀ (T : Tableur) (st_secrets : result secrets) (w : monde),
      ∃ w1 issue msgs,
        tenter_sauvegarde st_secrets questionnaire_type save_data w
        = (w1, Ok issue)
        ∧ ecran w1 = ecran w ++ msgs
        ∧ (issue = Some true →
           msgs = [st_success [Lit "✅ Réponses enregistrées avec succès !"]]
           ∧ (∃ credentials url cl n n' sp,
                st_secrets = Ok {| gsheet_credentials := Some credentials;
                                   gsheet_url := Some url |}
                ∧ url ≠ ""
                ∧ authorize credentials (distant w) = (n, Ok cl)
                ∧ open_by_url cl url n = (n', Ok sp))
           ∧ ∃ ws n, append_row ws (odict_values save_data) n
                     = (distant w1, Ok ()))
        ∧ (issue = Some false →
           ∃ e, msgs
                = [st_error [Lit "❌ Erreur lors de la sauvegarde: "; StrExn e];
                   st_warning [Lit "⚠️ Erreur d'enregistrement, mais vos réponses sont affichées ci-dessous"]])
        ∧ (issue = None → ∃ m, msgs = [st_warning m])
        ∧ ((∀ ws row n, (append_row ws row n).2 ≠ Ok ()) →
           issue ≠ Some true ∧ ∃ m, st_warning m ∈ msgs)
        ∧ (submitted s = true →
           show_questionnaire cfg questionnaire_type s session_state now
             st_secrets w
           = ({| ecran := ecran w ++ msgs ++ resultats responses sc save_data;
                 distant := distant w1 |}, Ok ())).
Proof.
  intros Hc Hsc Hpct.
  destruct (save_data_de questionnaire_type responses session_state now sc)
    as [save_data|e] eqn:Hsd.
  2:{ unfold save_data_de in Hsd. by rewrite Hpct in Hsd. }
  exists save_data. split; [done|].
  assert (contenu save_data !! "score_pourcentage" = Some (CFloat pct)) as Hp
    by champ_du_record Hsd Hc Hpct.
  split; [champ_du_record Hsd Hc Hpct|]. split; [champ_du_record Hsd Hc Hpct|].
  split; [champ_du_record Hsd Hc Hpct|]. split; [champ_du_record Hsd Hc Hpct|].
  split; [champ_du_record Hsd Hc Hpct|]. split; [champ_du_record Hsd Hc Hpct|].
  split; [champ_du_record Hsd Hc Hpct|]. split; [done|].
  destruct (resultats_scores responses sc save_data pct Hp) as (Hm1 & Hm2 & Hm3 & _).
  split; [done|]. split; [done|]. split; [done|].
  intros T st_secrets w.
  destruct (tenter_sauvegarde_spec st_secrets questionnaire_type save_data w)
    as (w1 & issue & msgs & Ht & He & Hvrai & Hfaux & Hnone).
  exists w1, issue, msgs.
  split; [done|]. split; [done|]. split; [done|]. split; [done|].
  split; [done|]. split.
  - intros Hpanne. split.
    + intros Hi. destruct (Hvrai Hi) as (_ & _ & ws & n & Ha).
      apply (Hpanne ws (odict_values save_data) n). by rewrite Ha.
    + destruct issue as [[]|].
      * destruct (Hvrai eq_refl) as (_ & _ & ws & n & Ha).
        destruct (Hpanne ws (odict_values save_data) n). by rewrite Ha.
      * destruct (Hfaux eq_refl) as (e & ->). eexists.
        apply list_elem_of_further, list_elem_of_here.
      * destruct (Hnone eq_refl) as (m & ->). exists m. apply list_elem_of_here.
  - intros Hsub. unfold show_questionnaire, prog_bind, lift.
    rewrite Hc, Hsub. unfold soumettre, prog_bind, lift. rewrite Hsc, Hsd, Ht.
    unfold afficher. by rewrite He, <- app_assoc.
Qed.

Lemma persistance_isolee_witness :
  ∃ save_data,
    save_data_de "pre" reponses_tout_3 session_vide "2025-01-01T10:00:00"
      scores_tout_3 = Ok save_data
    ∧ contenu save_data !! "score_total"
      = Some (CVal (PInt (score_total scores_tout_3)))
    ∧ contenu save_data !! "score_max"
      = Some (CVal (PInt (score_max scores_tout_3)))
    ∧ contenu save_data !! "score_partie_a"
      = Some (CVal (PInt (score_partie_a scores_tout_3)))
    ∧ contenu save_data !! "score_partie_b"
      = Some (CVal (PInt (score_partie_b scores_tout_3)))
    ∧ contenu save_data !! "items_positifs_a"
      = Some (CVal (PInt (items_positifs_a scores_tout_3)))
    ∧ contenu save_data !! "items_positifs_b"
      = Some (CVal (PInt (items_positifs_b scores_tout_3)))
    ∧ contenu save_data !! "screening_positif"
      = Some (CBool (screening_positif scores_tout_3))
    ∧ contenu save_data !! "score_pourcentage" = Some (CFloat 75%float)
    ∧ st_metric "Score total"
        [Val (CVal (PInt (score_total scores_tout_3))); Lit "/";
         Val (CVal (PInt (score_max scores_tout_3)))]
      ∈ resultats reponses_tout_3 scores_tout_3 save_data
    ∧ st_caption [Val (CFloat 75%float); Lit "%"]
      ∈ resultats reponses_tout_3 scores_tout_3 save_data
    ∧ st_metric "Partie A (dépistage)"
        [Val (CVal (PInt (items_positifs_a scores_tout_3))); Lit "/6"]
      ∈ resultats reponses_tout_3 scores_tout_3 save_data
    ∧ ∀ (T : Tableur) (st_secrets : result secrets) (w : monde),
      ∃ w1 issue msgs,
        tenter_sauvegarde st_secrets "pre" save_data w = (w1, Ok issue)
        ∧ ecran w1 = ecran w ++ msgs
        ∧ (issue = Some true →
           msgs = [st_success [Lit "✅ Réponses enregistrées avec succès !"]]
           ∧ (∃ credentials url cl n n' sp,
                st_secrets = Ok {| gsheet_credentials := Some credentials;
                                   gsheet_url := Some url |}
                ∧ url ≠ ""
                ∧ authorize credentials (distant w) = (n, Ok cl)
                ∧ open_by_url cl url n = (n', Ok sp))
           ∧ ∃ ws n, append_row ws (odict_values save_data) n
                     = (distant w1, Ok ()))
        ∧ (issue = Some false →
           ∃ e, msgs
                = [st_error [Lit "❌ Erreur lors de la sauvegarde: "; StrExn e];
                   st_warning [Lit "⚠️ Erreur d'enregistrement, mais vos réponses sont affichées ci-dessous"]])
        ∧ (issue = None → ∃ m, msgs = [st_warning m])
        ∧ ((∀ ws row n, (append_row ws row n).2 ≠ Ok ()) →
           issue ≠ Some true ∧ ∃ m, st_warning m ∈ msgs)
        ∧ (submitted saisie_tout_3 = true →
           show_questionnaire config_complete "pre" saisie_tout_3 session_vide
             "2025-01-01T10:00:00" st_secrets w
           = ({| ecran := ecran w ++ msgs
                          ++ resultats reponses_tout_3 scores_tout_3 save_data;
                 distant := distant w1 |}, Ok ())).
Proof.
  apply (persistance_isolee config_complete "pre" saisie_tout_3 session_vide
           "2025-01-01T10:00:00" reponses_tout_3 scores_tout_3 75%float).
  - reflexivity.
  - reflexivity.
  - reflexivity.
Defined.

(** The three outcomes of the attempt to save, each on a service that
    produces it: no connection, a write that raises, a saved record. *)
Example sauvegarde_sans_connexion :
  @tenter_sauvegarde tableur_en_panne secrets_complets "pre" [] monde_en_panne
  = (@Monde tableur_en_panne
       [st_warning [Lit "⚠️ Erreur de connexion Google Sheets: ";
                    StrExn (Exception "503")]] tt, Ok None).
Proof. reflexivity. Qed.

Example sauvegarde_sans_secrets :
  @tenter_sauvegarde tableur_memoire secrets_vides "pre" [] monde_memoire
  = (@Monde tableur_memoire
       [st_warning [Lit "⚠️ Pas de connexion Google Sheets configurée. Les données seront affichées mais non sauvegardées."]]
       (distant monde_memoire), Ok None).
Proof. reflexivity. Qed.

Example sauvegarde_ecriture_refusee :
  @tenter_sauvegarde tableur_lecture_seule secrets_complets "pre" []
    monde_lecture_seule
  = (@Monde tableur_lecture_seule
       [st_error [Lit "❌ Erreur lors de la sauvegarde: ";
                  StrExn (Exception "403")];
        st_warning [Lit "⚠️ Erreur d'enregistrement, mais vos réponses sont affichées ci-dessous"]]
       tt, Ok (Some false)).
Proof. reflexivity. Qed.

(** The header row and the row of values keep the order of the record. *)
Example sauvegarde_reussie :
  @tenter_sauvegarde tableur_memoire secrets_complets "post"
    [("timestamp", CVal (PStr "2025-01-01T10:00:00"));
     ("score_total", CVal (PInt 54));
     ("email", CVal (PStr ""))] monde_memoire
  = (@Monde tableur_memoire
       [st_success [Lit "✅ Réponses enregistrées avec succès !"]]
       ({[ "POST" := [[CVal (PStr "timestamp"); CVal (PStr "score_total");
                       CVal (PStr "email")];
                      [CVal (PStr "2025-01-01T10:00:00"); CVal (PInt 54);
                       CVal (PStr "")]] ]}
          : gmap string (list (list cell))), Ok (Some true)).
Proof. reflexivity. Qed.

Lemma string_length_app s1 s2 :
  String.length (s1 +:+ s2) = (String.length s1 + String.length s2)%nat.
Proof. induction s1 as [|c s1 IH]; [done|]. simpl. by rewrite IH. Qed.

(** An item key is not the key of a question text. *)
Lemma Q_ne_text n m : (n ≤ 18)%nat → Q n ≠ Q m +:+ "_text".
Proof.
  intros Hn Heq. apply (f_equal String.length) in Heq.
  rewrite string_length_app in Heq.
  assert (String.length (Q n) ≤ 3)%nat as Hl.
  { do 19 (destruct n as [|n]; [vm_compute; lia|]). lia. }
  change (String.length "_text") with 5%nat in Heq. lia.
Qed.

(** The form stores the 18 items: when [st.radio] returns an integer for
    each question, the dictionary handed to the calculator is complete. *)
Lemma for_each_boucle_question_lookup questions s l r0 r n :
  (n ≤ 18)%nat →
  for_each (boucle_question questions s) l r0 = Ok r →
  contenu r !! Q n = if bool_decide (n ∈ (λ i, i + 1)%nat <$> l)
                     then Some (radio s (n - 1)) else contenu r0 !! Q n.
Proof.
  intros Hn. revert r0. induction l as [|i l IH]; intros r0; cbn [for_each].
  - intros [= ->]. done.
  - destruct (boucle_question questions s r0 i) as [r1|] eqn:Hb; [|done].
    cbn [mbind result_bind]. intros Hl. rewrite (IH _ Hl). rewrite fmap_cons.
    apply boucle_question_contenu in Hb as (q & _ & Hb). rewrite Hb.
    destruct (decide (n ∈ (λ i, i + 1)%nat <$> l)) as [Hin|Hin].
    + rewrite (bool_decide_eq_true_2 _ Hin).
      by rewrite bool_decide_eq_true_2 by (by right).
    + rewrite (bool_decide_eq_false_2 _ Hin).
      rewrite lookup_insert_ne by (intros Heq; by apply (Q_ne_text n (i + 1))).
      destruct (decide (n = (i + 1)%nat)) as [->|Hne].
      * rewrite lookup_insert_eq, bool_decide_eq_true_2 by left.
        by rewrite Nat.add_sub.
      * rewrite lookup_insert_ne by (intros HQ; by apply Q_inj in HQ).
        rewrite bool_decide_eq_false_2; [done|].
        rewrite elem_of_cons. tauto.
Qed.

Lemma collecter_responses_item cfg questionnaire_type s responses n :
  collecter_responses cfg questionnaire_type s = Ok responses →
  (1 ≤ n ≤ 18)%nat → contenu responses !! Q n = Some (radio s (n - 1)).
Proof.
  unfold collecter_responses. intros Hc Hn.
  destruct (for_each _ (range 0 6) _) as [r1|] eqn:H1; [|done].
  cbn [mbind result_bind] in Hc.
  destruct (for_each _ (range 6 18) _) as [r2|] eqn:H2; [|done].
  cbn [mbind result_bind] in Hc.
  assert (contenu r2 !! Q n = Some (radio s (n - 1))) as Hr2.
  { rewrite (for_each_boucle_question_lookup _ _ _ _ _ n (proj2 Hn) H2).
    destruct (decide (n ∈ (λ i, i + 1)%nat <$> range 6 18)) as [Hin|Hin];
      [by rewrite (bool_decide_eq_true_2 _ Hin)|].
    rewrite (bool_decide_eq_false_2 _ Hin).
    rewrite (for_each_boucle_question_lookup _ _ _ _ _ n (proj2 Hn) H1).
    rewrite bool_decide_eq_true_2; [done|].
    apply list_elem_of_fmap. exists (n - 1)%nat. split; [lia|].
    apply elem_of_seq. destruct (decide (n ≤ 6)%nat); [lia|].
    exfalso. apply Hin. apply list_elem_of_fmap. exists (n - 1)%nat.
    split; [lia|]. apply elem_of_seq. simpl. lia. }
  rewrite <- Hr2.
  destruct (_ || _); [|by injection Hc as <-].
  injection Hc as <-. rewrite contenu_odict_set.
  rewrite lookup_insert_ne by (unfold Q; discriminate).
  case_bool_decide; rewrite contenu_odict_set;
    [rewrite lookup_insert_ne by (unfold Q; discriminate); rewrite contenu_odict_set|];
    by rewrite lookup_insert_ne by (unfold Q; discriminate).
Qed.

Lemma collecter_responses_complet cfg questionnaire_type s responses :
  collecter_responses cfg questionnaire_type s = Ok responses →
  (∀ i, (i < 18)%nat → ∃ v, radio s i = PInt v) →
  complet (contenu responses) = true.
Proof.
  intros Hc Hradio. unfold complet. apply forallb_forall. intros n Hn%in_seq.
  unfold present. rewrite (collecter_responses_item _ _ _ _ n Hc) by lia.
  destruct (Hradio (n - 1)%nat) as [v ->]; [lia|done].
Qed.

(** The percentage of a report is computed unless the total is beyond any
    float. *)
Lemma score_pourcentage_calcule sc :
  score_max sc = 72 → Z.abs (score_total sc) < 2 ^ 1000 →
  ∃ pct, score_pourcentage sc = Ok pct.
Proof.
  intros Hm Ht. unfold score_pourcentage, int_truediv. rewrite Hm.
  rewrite bool_decide_eq_false_2 by lia.
  assert (2 ^ 1000 < (2 ^ 1024 - 2 ^ 970) * Z.abs 72) as Hlim by reflexivity.
  rewrite bool_decide_eq_false_2.
  - cbn [mbind result_bind]. by eexists.
  - revert Ht Hlim. generalize (2 ^ 1000) ((2 ^ 1024 - 2 ^ 970) * Z.abs 72).
    intros. lia.
Qed.

(** Every run of the form lets the scores and the percentage be computed:
    with 18 questions answered by an index of the scale (an integer of a
    list index at most) and six thresholds, neither the calculator nor the
    percentage raises. *)
Lemma soumission_calculable cfg questionnaire_type s responses :
  collecter_responses cfg questionnaire_type s = Ok responses →
  (∀ i, (i < 18)%nat → ∃ v, radio s i = PInt v ∧ 0 ≤ v ≤ 2 ^ 63) →
  (6 ≤ length (seuils_a cfg))%nat →
  ∃ sc pct, calculer_score_asrs (contenu responses) cfg = Ok sc
          ∧ score_pourcentage sc = Ok pct.
Proof.
  intros Hc Hradio Hs.
  assert (complet (contenu responses) = true) as Hcomp.
  { apply (collecter_responses_complet _ _ _ _ Hc).
    intros i Hi. destruct (Hradio i Hi) as (v & -> & _). by eexists. }
  assert (∀ n, (1 ≤ n ≤ 18)%nat → 0 ≤ valeur (contenu responses) n ≤ 2 ^ 63)
    as Hv.
  { intros n Hn. unfold valeur.
    rewrite (collecter_responses_item _ _ _ _ n Hc Hn).
    destruct (Hradio (n - 1)%nat) as (v & -> & Hb); [lia|done]. }
  exists (rapport (seuils_a cfg) (contenu responses)).
  rewrite calculer_score_asrs_rapport by (by try apply complet_entiers).
  destruct (score_pourcentage_calcule (rapport (seuils_a cfg) (contenu responses)))
    as [pct Hp]; [done| |by exists pct].
  cbn [rapport score_total].
  pose proof (somme_items_borne 0 (2 ^ 63) (contenu responses) items_a) as Ha.
  pose proof (somme_items_borne 0 (2 ^ 63) (contenu responses) items_b) as Hb.
  assert (0 * Z.of_nat (length items_a) ≤ partA_score (contenu responses)
          ≤ 2 ^ 63 * Z.of_nat (length items_a)) as Ha'.
  { apply Ha. intros n Hn%elem_of_seq. apply Hv. lia. }
  assert (0 * Z.of_nat (length items_b) ≤ partB_score (contenu responses)
          ≤ 2 ^ 63 * Z.of_nat (length items_b)) as Hb'.
  { apply Hb. intros n Hn%elem_of_seq. apply Hv. lia. }
  assert (2 ^ 63 * 18 < 2 ^ 1000) as Hlim by reflexivity.
  change (Z.of_nat (length items_a)) with 6 in Ha'.
  change (Z.of_nat (length items_b)) with 12 in Hb'.
  revert Ha' Hb' Hlim. generalize (2 ^ 63) (2 ^ 1000). intros. lia.
Qed.

(** * Further properties of the code *)

(** * Further properties of the code *)

(** ** The calculator: when it raises, and what a report always satisfies *)

Lemma compte_bornes P l : 0 ≤ compte P l ≤ Z.of_nat (length l).
Proof.
  induction l as [|n l IH]; cbn [compte length]; [lia|].
  destruct (P n); lia.
Qed.

Lemma forallb_false_Exists {A} (f : A → bool) l :
  forallb f l = false → Exists (λ x, f x = false) l.
Proof.
  induction l as [|x l IH]; [done|]. cbn [forallb].
  destruct (f x) eqn:Hx; [|by left]. intros H. right. by apply IH.
Qed.

Lemma boucle_a_illisible r seuils acc i :
  lisible r (S i) = false → boucle_a r seuils acc i = Raise TypeError.
Proof.
  unfold lisible, boucle_a, dict_get. rewrite Nat.add_1_r. destruct acc.
  by destruct (r !! Q (S i)) as [[]|].
Qed.

Lemma boucle_b_illisible r acc i :
  lisible r (S i) = false → boucle_b r acc i = Raise TypeError.
Proof.
  unfold lisible, boucle_b, dict_get. rewrite Nat.add_1_r. destruct acc.
  by destruct (r !! Q (S i)) as [[]|].
Qed.

Lemma boucle_a_hors_seuils r seuils acc i :
  lisible r (S i) = true → (length seuils ≤ i)%nat →
  boucle_a r seuils acc i = Raise IndexError.
Proof.
  intros Hl Hi. unfold boucle_a. destruct acc.
  rewrite Nat.add_1_r, (dict_get_lisible _ _ Hl).
  unfold list_index. by rewrite lookup_ge_None_2.
Qed.

(** The first loop stops with [TypeError] at the first item that is
    neither absent nor an integer. *)
Lemma for_each_boucle_a_TypeError r seuils l acc :
  Forall (λ i, (i < length seuils)%nat) l →
  Exists (λ i, lisible r (S i) = false) l →
  for_each (boucle_a r seuils) l acc = Raise TypeError.
Proof.
  intros Hl. revert acc. induction Hl as [|i l Hi _ IH]; intros acc He.
  - inversion He.
  - cbn [for_each]. destruct (lisible r (S i)) eqn:Hr.
    + destruct acc as [s p]. rewrite boucle_a_lisible by done.
      cbn [mbind result_bind]. apply IH.
      inversion He as [? ? Hf|]; [congruence|done].
    + by rewrite boucle_a_illisible.
Qed.

Lemma for_each_boucle_b_TypeError r l acc :
  Exists (λ i, lisible r (S i) = false) l →
  for_each (boucle_b r) l acc = Raise TypeError.
Proof.
  revert acc. induction l as [|i l IH]; intros acc He.
  - inversion He.
  - cbn [for_each]. destruct (lisible r (S i)) eqn:Hr.
    + destruct acc as [s p]. rewrite boucle_b_lisible by done.
      cbn [mbind result_bind]. apply IH.
      inversion He as [? ? Hf|]; [congruence|done].
    + by rewrite boucle_b_illisible.
Qed.

(** On readable items it stops with [IndexError] at the first index that
    the threshold list does not have. *)
Lemma for_each_boucle_a_IndexError r seuils l acc :
  Forall (λ i, lisible r (S i) = true) l →
  Exists (λ i, (length seuils ≤ i)%nat) l →
  for_each (boucle_a r seuils) l acc = Raise IndexError.
Proof.
  intros Hl. revert acc. induction Hl as [|i l Hi _ IH]; intros acc He.
  - inversion He.
  - cbn [for_each]. destruct (decide (i < length seuils)%nat) as [Hlt|Hge].
    + destruct acc as [s p]. rewrite boucle_a_lisible by done.
      cbn [mbind result_bind]. apply IH.
      inversion He as [|]; [lia|done].
    + rewrite boucle_a_hors_seuils; [done|done|lia].
Qed.

Lemma boucle_a_Ok_inv r seuils acc i acc' :
  boucle_a r seuils acc i = Ok acc' →
  lisible r (S i) = true ∧ (i < length seuils)%nat.
Proof.
  intros H. destruct (lisible r (S i)) eqn:Hr.
  - split; [done|]. destruct (decide (i < length seuils)%nat); [done|].
    rewrite boucle_a_hors_seuils in H; [done|done|lia].
  - by rewrite boucle_a_illisible in H.
Qed.

Lemma for_each_boucle_a_Ok_inv r seuils l acc acc' :
  for_each (boucle_a r seuils) l acc = Ok acc' →
  Forall (λ i, lisible r (S i) = true ∧ (i < length seuils)%nat) l.
Proof.
  revert acc. induction l as [|i l IH]; intros acc; [by constructor|].
  cbn [for_each]. destruct (boucle_a r seuils acc i) as [acc1|] eqn:Hb; [|done].
  cbn [mbind result_bind]. intros H. constructor; [|by eapply IH].
  by eapply boucle_a_Ok_inv.
Qed.

Lemma for_each_boucle_b_Ok_inv r l acc acc' :
  for_each (boucle_b r) l acc = Ok acc' →
  Forall (λ i, lisible r (S i) = true) l.
Proof.
  revert acc. induction l as [|i l IH]; intros acc; [by constructor|].
  cbn [for_each]. destruct (lisible r (S i)) eqn:Hr.
  - destruct acc as [s p]. rewrite boucle_b_lisible by done.
    cbn [mbind result_bind]. intros H. constructor; [done|by eapply IH].
  - by rewrite boucle_b_illisible.
Qed.

(** A report is returned only on readable items and six thresholds, and it
    is then the report of the specification. *)
Lemma calculer_score_asrs_Ok_inv r cfg sc :
  calculer_score_asrs r cfg = Ok sc →
  entiers r = true ∧ (6 ≤ length (seuils_a cfg))%nat
  ∧ sc = rapport (seuils_a cfg) r.
Proof.
  intros H.
  assert (entiers r = true ∧ (6 ≤ length (seuils_a cfg))%nat) as [Hr Hs].
  { unfold calculer_score_asrs in H.
    destruct (for_each (boucle_a _ _) _ _) as [[sa pa]|] eqn:Ha; [|done].
    cbn [mbind result_bind] in H.
    destruct (for_each (boucle_b _) _ _) as [[sb pb]|] eqn:Hb; [|done].
    apply for_each_boucle_a_Ok_inv in Ha. apply for_each_boucle_b_Ok_inv in Hb.
    rewrite Forall_forall in Ha, Hb. split.
    - unfold entiers. apply forallb_forall. intros n Hn%in_seq.
      destruct (decide (n ≤ 6)%nat).
      + destruct (Ha (n - 1)%nat) as [Hl _]; [apply elem_of_seq; lia|].
        by replace (S (n - 1)) with n in Hl by lia.
      + specialize (Hb (n - 1)%nat).
        replace (S (n - 1)) with n in Hb by lia.
        apply Hb, elem_of_seq. simpl. lia.
    - destruct (Ha 5%nat) as [_ Hl]; [apply elem_of_seq; simpl; lia|lia]. }
  rewrite calculer_score_asrs_rapport in H by done. by injection H as <-.
Qed.

(** X1. Whatever the inputs, a report that the calculator returns has its
    Part A count between 0 and 6, its Part B count between 0 and 12, the
    total equal to the sum of the two part scores, [score_max] 72, and the
    screening flag set exactly when the Part A count is at least 4. *)
Theorem rapport_invariants r cfg sc :
  calculer_score_asrs r cfg = Ok sc →
  0 ≤ items_positifs_a sc ≤ 6
  ∧ 0 ≤ items_positifs_b sc ≤ 12
  ∧ score_total sc = score_partie_a sc + score_partie_b sc
  ∧ score_max sc = 72
  ∧ (screening_positif sc = true ↔ 4 ≤ items_positifs_a sc).
Proof.
  intros (_ & _ & ->)%calculer_score_asrs_Ok_inv.
  cbn [rapport items_positifs_a items_positifs_b score_total score_max
         score_partie_a score_partie_b screening_positif].
  pose proof (compte_bornes (positif_a (seuils_a cfg) r) items_a) as Ha.
  pose proof (compte_bornes (positif_b r) items_b) as Hb.
  change (Z.of_nat (length items_a)) with 6 in Ha.
  change (Z.of_nat (length items_b)) with 12 in Hb.
  unfold partA_positive_count, partB_positive_count.
  repeat split; try lia.
  - intros H%bool_decide_eq_true. lia.
  - intros H. apply bool_decide_eq_true. lia.
Qed.

Lemma rapport_invariants_witness :
  0 ≤ items_positifs_a (rapport (seuils_a config_seuils_1) q1_hors_echelle) ≤ 6
  ∧ 0 ≤ items_positifs_b (rapport (seuils_a config_seuils_1) q1_hors_echelle) ≤ 12
  ∧ score_total (rapport (seuils_a config_seuils_1) q1_hors_echelle)
    = score_partie_a (rapport (seuils_a config_seuils_1) q1_hors_echelle)
      + score_partie_b (rapport (seuils_a config_seuils_1) q1_hors_echelle)
  ∧ score_max (rapport (seuils_a config_seuils_1) q1_hors_echelle) = 72
  ∧ (screening_positif (rapport (seuils_a config_seuils_1) q1_hors_echelle) = true
     ↔ 4 ≤ items_positifs_a (rapport (seuils_a config_seuils_1) q1_hors_echelle)).
Proof.
  apply (rapport_invariants q1_hors_echelle config_seuils_1). reflexivity.
Defined.

(** X2. The calculator returns a report exactly when every item 1..18 is
    absent or an integer and there are at least six thresholds. With six
    thresholds and an item that holds something else it raises [TypeError];
    with readable items and fewer than six thresholds, [IndexError]. *)
Theorem calculer_score_asrs_erreurs r cfg :
  ((∃ sc, calculer_score_asrs r cfg = Ok sc)
   ↔ entiers r = true ∧ (6 ≤ length (seuils_a cfg))%nat)
  ∧ (entiers r = false → (6 ≤ length (seuils_a cfg))%nat →
     calculer_score_asrs r cfg = Raise TypeError)
  ∧ (entiers r = true → (length (seuils_a cfg) < 6)%nat →
     calculer_score_asrs r cfg = Raise IndexError).
Proof.
  split; [|split].
  - split.
    + intros [sc (Hr & Hs & _)%calculer_score_asrs_Ok_inv]. done.
    + intros [Hr Hs]. eexists. by apply calculer_score_asrs_rapport.
  - intros Hr Hs. apply forallb_false_Exists in Hr.
    unfold calculer_score_asrs.
    destruct (decide (Exists (λ i, lisible r (S i) = false) (range 0 6)))
      as [Ha|Ha].
    + rewrite for_each_boucle_a_TypeError; [done| |done].
      apply Forall_forall. intros i Hi%elem_of_seq. lia.
    + apply not_Exists_Forall in Ha; [|solve_decision].
      rewrite for_each_boucle_a.
      2:{ apply Forall_forall. intros i Hi. split.
          - apply elem_of_seq in Hi. lia.
          - rewrite Forall_forall in Ha. specialize (Ha i Hi). simpl in Ha.
            by destruct (lisible r (S i)). }
      cbv beta iota delta [mbind result_bind].
      rewrite for_each_boucle_b_TypeError; [done|].
      apply Exists_exists in Hr as (n & Hn%elem_of_seq & Hf).
      apply Exists_exists. exists (n - 1)%nat.
      replace (S (n - 1)) with n by lia. split; [|done].
      apply elem_of_seq. simpl. destruct (decide (n ≤ 6)%nat); [|lia].
      rewrite Forall_forall in Ha.
      specialize (Ha (n - 1)%nat). simpl in Ha.
      replace (S (n - 1)) with n in Ha by lia.
      exfalso. apply Ha; [|done]. apply elem_of_seq. lia.
  - intros Hr Hs. unfold calculer_score_asrs.
    rewrite for_each_boucle_a_IndexError; [done| |].
    + apply Forall_forall. intros i Hi%elem_of_seq.
      apply entiers_lisible; [done|lia].
    + apply Exists_exists. exists 5%nat. split; [|lia].
      apply elem_of_seq. simpl. lia.
Qed.

(** ** The calculator: how the report follows the answers *)

Lemma somme_items_mono r r' l :
  (∀ n, n ∈ l → valeur r n ≤ valeur r' n) → somme_items r l ≤ somme_items r' l.
Proof.
  induction l as [|n l IH]; intros H; [done|]. cbn [somme_items foldr].
  fold (somme_items r l) (somme_items r' l).
  assert (valeur r n ≤ valeur r' n) by (apply H; left).
  assert (somme_items r l ≤ somme_items r' l).
  { apply IH. intros m Hm. apply H. by right. }
  lia.
Qed.

Lemma compte_mono P P' l :
  (∀ n, n ∈ l → P n = true → P' n = true) → compte P l ≤ compte P' l.
Proof.
  induction l as [|n l IH]; intros H; [done|]. cbn [compte].
  assert (compte P l ≤ compte P' l).
  { apply IH. intros m Hm. apply H. by right. }
  destruct (P n) eqn:Hp; [rewrite (H n) by (done || left); lia|].
  destruct (P' n); lia.
Qed.

(** X3. The report grows with the answers: when no item is answered lower,
    neither part score, nor the total, nor either count of positives goes
    down, and a positive screening stays positive. *)
Theorem calculer_score_asrs_croissant r r' cfg :
  entiers r = true → entiers r' = true → (6 ≤ length (seuils_a cfg))%nat →
  (∀ n, (1 ≤ n ≤ 18)%nat → valeur r n ≤ valeur r' n) →
  ∃ sc sc', calculer_score_asrs r cfg = Ok sc
    ∧ calculer_score_asrs r' cfg = Ok sc'
    ∧ score_partie_a sc ≤ score_partie_a sc'
    ∧ score_partie_b sc ≤ score_partie_b sc'
    ∧ score_total sc ≤ score_total sc'
    ∧ items_positifs_a sc ≤ items_positifs_a sc'
    ∧ items_positifs_b sc ≤ items_positifs_b sc'
    ∧ (screening_positif sc = true → screening_positif sc' = true).
Proof.
  intros Hr Hr' Hs Hle. eexists _, _.
  split; [by apply calculer_score_asrs_rapport|].
  split; [by apply calculer_score_asrs_rapport|].
  cbn [rapport score_partie_a score_partie_b score_total items_positifs_a
         items_positifs_b screening_positif].
  assert (partA_score r ≤ partA_score r') as Ha.
  { apply somme_items_mono. intros n Hn%elem_of_seq. apply Hle. lia. }
  assert (partB_score r ≤ partB_score r') as Hb.
  { apply somme_items_mono. intros n Hn%elem_of_seq. apply Hle. lia. }
  assert (partA_positive_count (seuils_a cfg) r
          ≤ partA_positive_count (seuils_a cfg) r') as Hpa.
  { apply compte_mono. intros n Hn%elem_of_seq. unfold positif_a.
    destruct (seuils_a cfg !! (n - 1)%nat); [|done].
    rewrite !bool_decide_eq_true. specialize (Hle n). lia. }
  assert (partB_positive_count r ≤ partB_positive_count r') as Hpb.
  { apply compte_mono. intros n Hn%elem_of_seq. unfold positif_b.
    rewrite !bool_decide_eq_true. specialize (Hle n). lia. }
  repeat split; try lia.
  rewrite !bool_decide_eq_true. lia.
Qed.

Lemma calculer_score_asrs_croissant_witness :
  ∃ sc sc', calculer_score_asrs trois_positifs config_defaut = Ok sc
    ∧ calculer_score_asrs quatre_positifs config_defaut = Ok sc'
    ∧ score_partie_a sc ≤ score_partie_a sc'
    ∧ score_partie_b sc ≤ score_partie_b sc'
    ∧ score_total sc ≤ score_total sc'
    ∧ items_positifs_a sc ≤ items_positifs_a sc'
    ∧ items_positifs_b sc ≤ items_positifs_b sc'
    ∧ (screening_positif sc = true → screening_positif sc' = true).
Proof.
  apply (calculer_score_asrs_croissant trois_positifs quatre_positifs
           config_defaut).
  - reflexivity.
  - reflexivity.
  - simpl. lia.
  - intros n Hn.
    do 19 (destruct n as [|n]; [try lia; vm_compute; congruence|]). lia.
Defined.

(** X4. The two parts do not touch each other: whatever is stored for an
    item of 7..18, the Part A score, the Part A count and the screening flag
    are the same as before; whatever is stored for an item of 1..6, the
    Part B score and count are the same as before. *)
Theorem parties_independantes r cfg n v :
  entiers r = true → (6 ≤ length (seuils_a cfg))%nat →
  ∃ sc sc', calculer_score_asrs r cfg = Ok sc
    ∧ calculer_score_asrs (<[Q n := PInt v]> r) cfg = Ok sc'
    ∧ ((7 ≤ n ≤ 18)%nat →
       score_partie_a sc' = score_partie_a sc
       ∧ items_positifs_a sc' = items_positifs_a sc
       ∧ screening_positif sc' = screening_positif sc)
    ∧ ((1 ≤ n ≤ 6)%nat →
       score_partie_b sc' = score_partie_b sc
       ∧ items_positifs_b sc' = items_positifs_b sc).
Proof.
  intros Hr Hs. eexists _, _.
  split; [by apply calculer_score_asrs_rapport|].
  split; [apply calculer_score_asrs_rapport; [by apply entiers_insert|done]|].
  cbn [rapport score_partie_a score_partie_b items_positifs_a
         items_positifs_b screening_positif].
  split; intros Hn.
  - assert (partA_score (<[Q n := PInt v]> r) = partA_score r) as ->.
    { apply somme_items_ext. intros m Hm%elem_of_seq.
      rewrite valeur_insert, decide_False; [done|lia]. }
    assert (partA_positive_count (seuils_a cfg) (<[Q n := PInt v]> r)
            = partA_positive_count (seuils_a cfg) r) as ->.
    { apply compte_ext. intros m Hm%elem_of_seq. unfold positif_a.
      rewrite valeur_insert, decide_False; [done|lia]. }
    done.
  - assert (partB_score (<[Q n := PInt v]> r) = partB_score r) as ->.
    { apply somme_items_ext. intros m Hm%elem_of_seq.
      rewrite valeur_insert, decide_False; [done|lia]. }
    assert (partB_positive_count (<[Q n := PInt v]> r)
            = partB_positive_count r) as ->.
    { apply compte_ext. intros m Hm%elem_of_seq. unfold positif_b.
      rewrite valeur_insert, decide_False; [done|lia]. }
    done.
Qed.

Lemma parties_independantes_witness :
  ∃ sc sc', calculer_score_asrs trois_positifs config_defaut = Ok sc
    ∧ calculer_score_asrs (<[Q 12 := PInt 4]> trois_positifs) config_defaut = Ok sc'
    ∧ ((7 ≤ 12 ≤ 18)%nat →
       score_partie_a sc' = score_partie_a sc
       ∧ items_positifs_a sc' = items_positifs_a sc
       ∧ screening_positif sc' = screening_positif sc)
    ∧ ((1 ≤ 12 ≤ 6)%nat →
       score_partie_b sc' = score_partie_b sc
       ∧ items_positifs_b sc' = items_positifs_b sc).
Proof.
  apply (parties_independantes trois_positifs config_defaut 12 4).
  - reflexivity.
  - simpl. lia.
Defined.

(** X5. Only the first six thresholds are read: two configurations whose
    threshold lists agree on their first six entries give the same result,
    report or exception, on every response set. *)
Theorem seuils_six_premiers r cfg1 cfg2 :
  take 6 (seuils_a cfg1) = take 6 (seuils_a cfg2) →
  calculer_score_asrs r cfg1 = calculer_score_asrs r cfg2.
Proof.
  intros Ht. unfold calculer_score_asrs.
  rewrite (for_each_ext (boucle_a r (seuils_a cfg1)) (boucle_a r (seuils_a cfg2)));
    [done|].
  intros i acc Hi%elem_of_seq. unfold boucle_a, list_index.
  rewrite <- (lookup_take_lt (seuils_a cfg1) 6 i) by lia.
  rewrite <- (lookup_take_lt (seuils_a cfg2) 6 i) by lia.
  by rewrite Ht.
Qed.

Lemma seuils_six_premiers_witness :
  calculer_score_asrs trois_positifs config_huit_seuils
  = calculer_score_asrs trois_positifs config_defaut.
Proof.
  apply (seuils_six_premiers trois_positifs config_huit_seuils config_defaut).
  reflexivity.
Defined.

Lemma somme_items_const r v l :
  (∀ n, n ∈ l → valeur r n = v) → somme_items r l = v * Z.of_nat (length l).
Proof.
  induction l as [|n l IH]; intros H; [simpl; lia|].
  cbn [somme_items foldr length]. fold (somme_items r l).
  rewrite H by left. rewrite IH; [lia|]. intros m Hm. apply H. by right.
Qed.

(** X6. On a scale whose top value is [m] the Part A score is at most
    [6 m], the Part B score at most [12 m] and the total at most [18 m],
    reached when every item is answered [m]; [score_max] is 72 whatever [m]
    is, so the total exceeds it on a scale of more than five levels. *)
Theorem score_total_borne_echelle r cfg m :
  dans_echelle 0 m r = true → (6 ≤ length (seuils_a cfg))%nat →
  ∃ sc, calculer_score_asrs r cfg = Ok sc
      ∧ 0 ≤ score_partie_a sc ≤ 6 * m
      ∧ 0 ≤ score_partie_b sc ≤ 12 * m
      ∧ 0 ≤ score_total sc ≤ 18 * m
      ∧ score_max sc = 72
      ∧ (tous_a m r = true → score_total sc = 18 * m).
Proof.
  intros Hr Hs. eexists. split.
  { apply calculer_score_asrs_rapport; [|done].
    by eapply complet_entiers, dans_echelle_complet. }
  cbn [rapport score_partie_a score_partie_b score_total score_max].
  pose proof (somme_items_borne 0 m r items_a) as Ha.
  pose proof (somme_items_borne 0 m r items_b) as Hb.
  assert (0 * Z.of_nat (length items_a) ≤ partA_score r
          ≤ m * Z.of_nat (length items_a)) as Ha'.
  { apply Ha. intros n Hn%elem_of_seq.
    apply (dans_echelle_valeur _ _ _ _ Hr). lia. }
  assert (0 * Z.of_nat (length items_b) ≤ partB_score r
          ≤ m * Z.of_nat (length items_b)) as Hb'.
  { apply Hb. intros n Hn%elem_of_seq.
    apply (dans_echelle_valeur _ _ _ _ Hr). lia. }
  change (Z.of_nat (length items_a)) with 6 in Ha'.
  change (Z.of_nat (length items_b)) with 12 in Hb'.
  repeat split; try lia.
  intros Hm. unfold partA_score, partB_score.
  rewrite (somme_items_const r m items_a), (somme_items_const r m items_b).
  - change (Z.of_nat (length items_a)) with 6.
    change (Z.of_nat (length items_b)) with 12. lia.
  - intros n Hn%elem_of_seq. unfold valeur.
    rewrite (tous_a_lookup m r n Hm); [done|lia].
  - intros n Hn%elem_of_seq. unfold valeur.
    rewrite (tous_a_lookup m r n Hm); [done|lia].
Qed.

Lemma score_total_borne_echelle_witness :
  ∃ sc, calculer_score_asrs tout_5 config_six_niveaux = Ok sc
      ∧ 0 ≤ score_partie_a sc ≤ 6 * 5
      ∧ 0 ≤ score_partie_b sc ≤ 12 * 5
      ∧ 0 ≤ score_total sc ≤ 18 * 5
      ∧ score_max sc = 72
      ∧ (tous_a 5 tout_5 = true → score_total sc = 18 * 5).
Proof.
  apply (score_total_borne_echelle tout_5 config_six_niveaux 5).
  - reflexivity.
  - simpl. lia.
Defined.

(** On the six-level scale: a total of 90 out of 72, shown as 125.0 %. *)
Example six_niveaux_depasse_score_max :
  calculer_score_asrs tout_5 config_six_niveaux
  = Ok {| score_total := 90; score_max := 72;
          score_partie_a := 30; score_partie_b := 60;
          items_positifs_a := 6; items_positifs_b := 12;
          screening_positif := true |}
  ∧ (sc ← calculer_score_asrs tout_5 config_six_niveaux; score_pourcentage sc)
    = Ok 125%float.
Proof. split; reflexivity. Qed.

(** ** The percentage of a total within the scale *)

(** X7. For a total between 0 and 72 out of 72 the percentage is computed
    (no exception), lies between 0.0 and 100.0, and is the float nearest to
    [d / 10] where [d] is the integer nearest to [1000 * total / 72]: the
    floating-point division and product lose nothing that the rounding to
    one decimal keeps. No such total falls on a tie, so rounding half up
    and rounding half to even give the same [d]. *)
Theorem score_pourcentage_dans_echelle sc :
  score_max sc = 72 → 0 ≤ score_total sc ≤ 72 →
  ∃ p, score_pourcentage sc = Ok p
     ∧ PrimFloat.leb 0 p = true
     ∧ PrimFloat.leb p 100 = true
     ∧ p = SF2Prim (SFdiv prec emax
                      (Z2SF (round_half_even (1000 * score_total sc) 72))
                      (Z2SF 10))
     ∧ 2 * ((1000 * score_total sc) mod 72) ≠ 72
     ∧ round_half_even (1000 * score_total sc) 72
       = (1000 * score_total sc + 36) / 72.
Proof.
  destruct sc as [t m sa sb pa pb sp]. cbn [score_max score_total].
  intros -> Ht. unfold score_pourcentage. cbn [score_max score_total].
  assert (∃ k, t = Z.of_nat k ∧ (k ≤ 72)%nat) as (k & -> & Hk).
  { exists (Z.to_nat t). lia. }
  do 73 (destruct k as [|k];
         [eexists; split; [reflexivity|]; vm_compute; repeat split; congruence|]).
  lia.
Qed.

Lemma score_pourcentage_dans_echelle_witness :
  ∃ p, score_pourcentage scores_tout_3 = Ok p
     ∧ PrimFloat.leb 0 p = true
     ∧ PrimFloat.leb p 100 = true
     ∧ p = SF2Prim (SFdiv prec emax
                      (Z2SF (round_half_even (1000 * score_total scores_tout_3) 72))
                      (Z2SF 10))
     ∧ 2 * ((1000 * score_total scores_tout_3) mod 72) ≠ 72
     ∧ round_half_even (1000 * score_total scores_tout_3) 72
       = (1000 * score_total scores_tout_3 + 36) / 72.
Proof.
  apply (score_pourcentage_dans_echelle scores_tout_3).
  - reflexivity.
  - simpl. lia.
Defined.

(** ** The form: the dictionary [responses] *)

Lemma boucle_question_cas questions s r0 i :
  match questions !! i with
  | Some q =>
      boucle_question questions s r0 i
      = Ok (odict_set (Q (i + 1) +:+ "_text") (PStr q)
              (odict_set (Q (i + 1)) (radio s i) r0))
  | None => boucle_question questions s r0 i = Raise IndexError
  end.
Proof. unfold boucle_question, list_index. by destruct (questions !! i). Qed.

Lemma for_each_boucle_question_IndexError questions s l r0 :
  Exists (λ i, (length questions ≤ i)%nat) l →
  for_each (boucle_question questions s) l r0 = Raise IndexError.
Proof.
  revert r0. induction l as [|i l IH]; intros r0 He; [inversion He|].
  cbn [for_each]. pose proof (boucle_question_cas questions s r0 i) as Hb.
  destruct (questions !! i) as [q|] eqn:Hq; rewrite Hb; [|done].
  cbn [mbind result_bind]. apply IH.
  inversion He as [? ? Hi|]; [|done].
  apply lookup_lt_Some in Hq. lia.
Qed.

Lemma for_each_boucle_question_Ok questions s l r0 :
  Forall (λ i, (i < length questions)%nat) l →
  ∃ r, for_each (boucle_question questions s) l r0 = Ok r.
Proof.
  intros Hl. revert r0. induction Hl as [|i l Hi _ IH]; intros r0.
  - by eexists.
  - cbn [for_each]. pose proof (boucle_question_cas questions s r0 i) as Hb.
    apply lookup_lt_is_Some_2 in Hi as [q Hq]. rewrite Hq in Hb. rewrite Hb.
    cbn [mbind result_bind]. apply IH.
Qed.

Lemma collecter_responses_courte cfg questionnaire_type s :
  (length (questions_de cfg questionnaire_type) < 18)%nat →
  collecter_responses cfg questionnaire_type s = Raise IndexError.
Proof.
  intros Hl. unfold collecter_responses.
  destruct (decide (length (questions_de cfg questionnaire_type) < 6)%nat).
  - rewrite for_each_boucle_question_IndexError; [done|].
    apply Exists_exists. exists 5%nat. split; [|lia].
    apply elem_of_seq. simpl. lia.
  - destruct (for_each_boucle_question_Ok
                (questions_de cfg questionnaire_type) s (range 0 6) [])
      as [r1 ->].
    { apply Forall_forall. intros i Hi%elem_of_seq. lia. }
    cbn [mbind result_bind].
    rewrite for_each_boucle_question_IndexError; [done|].
    apply Exists_exists. exists 17%nat. split; [|lia].
    apply elem_of_seq. simpl. lia.
Qed.

Lemma collecter_responses_Ok_longueur cfg questionnaire_type s responses :
  collecter_responses cfg questionnaire_type s = Ok responses →
  (18 ≤ length (questions_de cfg questionnaire_type))%nat.
Proof.
  intros Hc.
  destruct (decide (18 ≤ length (questions_de cfg questionnaire_type))%nat);
    [done|].
  rewrite collecter_responses_courte in Hc by lia. done.
Qed.

(** X8. The form is filled exactly when the question list of the
    questionnaire type has at least 18 entries; with fewer, reading the
    missing question raises [IndexError] and no dictionary is built. A type
    other than "pre" and "post" reads the retrospective list. *)
Theorem collecter_responses_questions cfg questionnaire_type s :
  ((∃ responses, collecter_responses cfg questionnaire_type s = Ok responses)
   ↔ (18 ≤ length (questions_de cfg questionnaire_type))%nat)
  ∧ ((length (questions_de cfg questionnaire_type) < 18)%nat →
     collecter_responses cfg questionnaire_type s = Raise IndexError)
  ∧ (questionnaire_type ≠ "pre" → questionnaire_type ≠ "post" →
     questions_de cfg questionnaire_type = questionnaire_retrospectif cfg).
Proof.
  split; [|split].
  - split.
    + intros [responses Hc]. by eapply collecter_responses_Ok_longueur.
    + intros Hl. unfold collecter_responses.
      destruct (for_each_boucle_question_Ok
                  (questions_de cfg questionnaire_type) s (range 0 6) [])
        as [r1 ->].
      { apply Forall_forall. intros i Hi%elem_of_seq. lia. }
      cbn [mbind result_bind].
      destruct (for_each_boucle_question_Ok
                  (questions_de cfg questionnaire_type) s (range 6 18) r1)
        as [r2 ->].
      { apply Forall_forall. intros i Hi%elem_of_seq. simpl in Hi. lia. }
      cbn [mbind result_bind]. destruct (_ || _); by eexists.
  - apply collecter_responses_courte.
  - intros H1 H2. unfold questions_de.
    by rewrite !bool_decide_eq_false_2 by done.
Qed.

(** What the two loops of the form build from 18 questions or more: the
    answer and the text of each question, in the order of the questions. *)
Lemma boucles_questions qs s :
  (18 ≤ length qs)%nat →
  (r1 ← for_each (boucle_question qs s) (range 0 6) [];
   for_each (boucle_question qs s) (range 6 18) r1)
  = Ok (flat_map (λ '(i, q), [ (Q (i + 1), radio s i);
                               (Q (i + 1) +:+ "_text", PStr q) ])
          (zip (seq 0 18) qs)).
Proof.
  intros Hl. do 18 (destruct qs as [|? qs]; [simpl in Hl; lia|]). clear Hl.
  reflexivity.
Qed.

Lemma collecter_responses_detail cfg questionnaire_type s responses :
  collecter_responses cfg questionnaire_type s = Ok responses →
  responses
  = flat_map (λ '(i, q), [ (Q (i + 1), radio s i);
                           (Q (i + 1) +:+ "_text", PStr q) ])
      (zip (seq 0 18) (questions_de cfg questionnaire_type))
    ++ (if bool_decide (questionnaire_type = "post")
           || bool_decide (questionnaire_type = "retrospectif")
        then [("satisfaction", PInt (slider_satisfaction s))]
             ++ (if bool_decide (questionnaire_type = "retrospectif")
                 then [("amelioration_percue", PStr (slider_amelioration s))]
                 else [])
             ++ [("commentaires", PStr (text_commentaires s))]
        else []).
Proof.
  intros Hc. pose proof (collecter_responses_Ok_longueur _ _ _ _ Hc) as Hl.
  unfold collecter_responses in Hc. revert Hc Hl.
  generalize (questions_de cfg questionnaire_type). intros qs Hc Hl.
  pose proof (boucles_questions qs s Hl) as Hb.
  destruct (for_each _ (range 0 6) _) as [r1|]; [|done].
  cbn [mbind result_bind] in Hb, Hc. rewrite Hb in Hc.
  cbn [mbind result_bind] in Hc. clear Hb.
  do 18 (destruct qs as [|? qs]; [simpl in Hl; lia|]). clear Hl.
  destruct (decide (questionnaire_type = "retrospectif")) as [->|Hretro];
    [|destruct (decide (questionnaire_type = "post")) as [->|Hpost]].
  - injection Hc as <-. reflexivity.
  - injection Hc as <-. reflexivity.
  - rewrite !bool_decide_eq_false_2 in * by done. cbn [orb] in *.
    injection Hc as <-. by rewrite app_nil_r.
Qed.

(** X9. The dictionary that the form fills holds, in this order, the answer
    to question 1 under [Q1] and its text under [Q1_text], and so on to
    [Q18] and [Q18_text]; then, for the types "post" and "retrospectif"
    only, the satisfaction, the perceived improvement ("retrospectif" only)
    and the comments; and nothing else. Questions beyond the eighteenth are
    not read. *)
Theorem collecter_responses_contenu cfg questionnaire_type s responses :
  collecter_responses cfg questionnaire_type s = Ok responses →
  responses
  = flat_map (λ '(i, q), [ (Q (i + 1), radio s i);
                           (Q (i + 1) +:+ "_text", PStr q) ])
      (zip (seq 0 18) (questions_de cfg questionnaire_type))
    ++ (if bool_decide (questionnaire_type = "post")
           || bool_decide (questionnaire_type = "retrospectif")
        then [("satisfaction", PInt (slider_satisfaction s))]
             ++ (if bool_decide (questionnaire_type = "retrospectif")
                 then [("amelioration_percue", PStr (slider_amelioration s))]
                 else [])
             ++ [("commentaires", PStr (text_commentaires s))]
        else []).
Proof. apply collecter_responses_detail. Qed.

Lemma collecter_responses_contenu_witness :
  reponses_tout_3
  = flat_map (λ '(i, q), [ (Q (i + 1), radio saisie_tout_3 i);
                           (Q (i + 1) +:+ "_text", PStr q) ])
      (zip (seq 0 18) (questions_de config_complete "pre"))
    ++ (if bool_decide ("pre" = "post") || bool_decide ("pre" = "retrospectif")
        then [("satisfaction", PInt (slider_satisfaction saisie_tout_3))]
             ++ (if bool_decide ("pre" = "retrospectif")
                 then [("amelioration_percue",
                        PStr (slider_amelioration saisie_tout_3))]
                 else [])
             ++ [("commentaires", PStr (text_commentaires saisie_tout_3))]
        else []).
Proof.
  apply (collecter_responses_contenu config_complete "pre" saisie_tout_3).
  reflexivity.
Defined.

(** The three question forms on the sample configuration: 36, 38 and 39
    entries. *)
Example collecter_responses_longueurs :
  length <$> collecter_responses config_complete "pre" saisie_tout_3 = Ok 36%nat
  ∧ length <$> collecter_responses config_complete "post" saisie_tout_3
    = Ok 38%nat
  ∧ odict_keys <$> (drop 36 <$> collecter_responses config_complete
                                  "retrospectif" saisie_tout_3)
    = Ok ["satisfaction"; "amelioration_percue"; "commentaires"].
Proof. repeat split; reflexivity. Qed.

(** ** The record [save_data] *)

Lemma odict_set_absent {V} k (v : V) d :
  k ∉ odict_keys d → odict_set k v d = d ++ [(k, v)].
Proof.
  unfold odict_keys. induction d as [|[k' v'] d IH]; intros Hk; [done|].
  cbn in Hk. apply not_elem_of_cons in Hk as [Hne Hk].
  cbn [odict_set]. rewrite decide_False by done. by rewrite IH.
Qed.

(** Updating with keys that are new and distinct appends them in order. *)
Lemma odict_update_disjoint {V} (d other : odict V) :
  NoDup (odict_keys other) →
  (∀ k, k ∈ odict_keys other → k ∉ odict_keys d) →
  odict_update d other = d ++ other.
Proof.
  unfold odict_update, odict_keys. revert d.
  induction other as [|[k v] other IH]; intros d Hnd Hdisj.
  - by rewrite app_nil_r.
  - cbn in Hnd. apply NoDup_cons in Hnd as [Hk Hnd].
    cbn [foldl fst snd]. rewrite odict_set_absent.
    2:{ apply Hdisj. cbn. left. }
    rewrite IH; [by rewrite <- app_assoc|done|].
    intros k' Hk'. rewrite fmap_app, elem_of_app. intros [Hin|Hin].
    + apply (Hdisj k'); [cbn; by right|done].
    + cbn in Hin. apply list_elem_of_singleton in Hin as ->. done.
Qed.

Lemma for_each_boucle_question_NoDup questions s l r0 r :
  for_each (boucle_question questions s) l r0 = Ok r →
  NoDup (odict_keys r0) → NoDup (odict_keys r).
Proof.
  revert r0. induction l as [|i l IH]; intros r0; cbn [for_each].
  - by intros [= ->].
  - pose proof (boucle_question_cas questions s r0 i) as Hb.
    destruct (questions !! i) as [q|]; rewrite Hb; [|done].
    cbn [mbind result_bind]. intros Hl Hnd. apply (IH _ Hl).
    by do 2 apply odict_set_NoDup.
Qed.

(** The form writes each of its keys once. *)
Lemma collecter_responses_NoDup cfg questionnaire_type s responses :
  collecter_responses cfg questionnaire_type s = Ok responses →
  NoDup (odict_keys responses).
Proof.
  unfold collecter_responses.
  destruct (for_each _ (range 0 6) _) as [r1|] eqn:H1; [|done].
  cbn [mbind result_bind].
  destruct (for_each _ (range 6 18) _) as [r2|] eqn:H2; [|done].
  cbn [mbind result_bind].
  assert (NoDup (odict_keys r2)) as Hnd.
  { apply (for_each_boucle_question_NoDup _ _ _ _ _ H2).
    apply (for_each_boucle_question_NoDup _ _ _ _ _ H1). constructor. }
  destruct (_ || _); [|by intros [= <-]].
  intros [= <-]. apply odict_set_NoDup.
  case_bool_decide; repeat apply odict_set_NoDup; done.
Qed.

Lemma champs_de_disjoint cfg questionnaire_type s responses session_state now
    sc pct k :
  collecter_responses cfg questionnaire_type s = Ok responses →
  k ∈ odict_keys responses →
  k ∉ odict_keys (champs_de questionnaire_type session_state now sc pct).
Proof.
  intros Hc Hk Hchamp.
  assert (is_Some (contenu responses !! k)) as Hs.
  { apply not_eq_None_Some. by intros Hn%contenu_lookup_None. }
  destruct (collecter_responses_cles _ _ _ _ k Hc Hs) as [[k' ->]|[->|[->| ->]]];
    unfold odict_keys, champs_de in Hchamp; cbn in Hchamp;
    rewrite !elem_of_cons, elem_of_nil in Hchamp;
    by repeat destruct Hchamp as [Hchamp|Hchamp].
Qed.

Lemma save_data_de_detail cfg questionnaire_type s responses session_state now
    sc save_data :
  collecter_responses cfg questionnaire_type s = Ok responses →
  save_data_de questionnaire_type responses session_state now sc = Ok save_data →
  ∃ pct,
    score_pourcentage sc = Ok pct
    ∧ save_data
      = champs_de questionnaire_type session_state now sc pct
        ++ (prod_map id CVal <$> responses)
    ∧ NoDup (odict_keys save_data).
Proof.
  intros Hc. unfold save_data_de.
  destruct (score_pourcentage sc) as [pct|]; [|done].
  cbn [mbind result_bind]. intros [= <-]. exists pct. split; [done|].
  pose proof (collecter_responses_NoDup _ _ _ _ Hc) as Hnd.
  assert (odict_update (champs_de questionnaire_type session_state now sc pct)
            (prod_map id CVal <$> responses)
          = champs_de questionnaire_type session_state now sc pct
            ++ (prod_map id CVal <$> responses)) as Heq.
  { apply odict_update_disjoint.
    - by rewrite odict_keys_CVal.
    - intros k. rewrite odict_keys_CVal. intros Hk.
      by apply (champs_de_disjoint cfg questionnaire_type s responses). }
  split; [exact Heq|]. rewrite Heq. unfold odict_keys. rewrite fmap_app.
  apply NoDup_app. split; [|split].
  - apply (bool_decide_unpack _). reflexivity.
  - intros k Hk1 Hk2. fold (odict_keys (prod_map id CVal <$> responses)) in Hk2.
    rewrite odict_keys_CVal in Hk2.
    by apply (champs_de_disjoint cfg questionnaire_type s responses
                session_state now sc pct k Hc).
  - fold (odict_keys (prod_map id CVal <$> responses)).
    by rewrite odict_keys_CVal.
Qed.

(** X10. The record of a submission is the thirteen fields of the
    dictionary display, in the order they are written, followed by the
    entries of the form in their order, each under its own key: no answer
    overwrites a field, no field is lost and no key comes twice. The e-mail,
    age and gender are those of the session, or the empty string when the
    session has none. The record has 49 entries for "pre", 51 for "post" and
    52 for "retrospectif". *)
Theorem save_data_de_contenu cfg questionnaire_type s responses session_state
    now sc save_data :
  collecter_responses cfg questionnaire_type s = Ok responses →
  save_data_de questionnaire_type responses session_state now sc = Ok save_data →
  ∃ pct,
    score_pourcentage sc = Ok pct
    ∧ save_data
      = [ ("timestamp", CVal (PStr now));
          ("type_questionnaire", CVal (PStr questionnaire_type));
          ("email", CVal (default (PStr "") (session_state !! "email")));
          ("age", CVal (default (PStr "") (session_state !! "age")));
          ("genre", CVal (default (PStr "") (session_state !! "genre")));
          ("score_total", CVal (PInt (score_total sc)));
          ("score_max", CVal (PInt (score_max sc)));
          ("score_partie_a", CVal (PInt (score_partie_a sc)));
          ("score_partie_b", CVal (PInt (score_partie_b sc)));
          ("items_positifs_a", CVal (PInt (items_positifs_a sc)));
          ("items_positifs_b", CVal (PInt (items_positifs_b sc)));
          ("screening_positif", CBool (screening_positif sc));
          ("score_pourcentage", CFloat pct) ]
        ++ (prod_map id CVal <$> responses)
    ∧ NoDup (odict_keys save_data)
    ∧ length save_data
      = (49 + (if bool_decide (questionnaire_type = "post")
                  || bool_decide (questionnaire_type = "retrospectif")
               then 2 else 0)
            + (if bool_decide (questionnaire_type = "retrospectif")
               then 1 else 0))%nat.
Proof.
  intros Hc Hsd.
  destruct (save_data_de_detail _ _ _ _ _ _ _ _ Hc Hsd)
    as (pct & Hp & Heq & Hnd).
  exists pct. split; [done|]. split; [exact Heq|]. split; [exact Hnd|].
  pose proof (collecter_responses_Ok_longueur _ _ _ _ Hc) as Hl.
  pose proof (collecter_responses_detail _ _ _ _ Hc) as Hr.
  revert Hr Hl. generalize (questions_de cfg questionnaire_type). intros qs Hr Hl.
  do 18 (destruct qs as [|? qs]; [simpl in Hl; lia|]). clear Hl.
  rewrite Heq, Hr. clear.
  destruct (decide (questionnaire_type = "retrospectif")) as [->|Hretro];
    [|destruct (decide (questionnaire_type = "post")) as [->|Hpost]].
  - reflexivity.
  - reflexivity.
  - rewrite !bool_decide_eq_false_2 by done. reflexivity.
Qed.

Lemma save_data_de_contenu_witness :
  ∃ save_data,
    save_data_de "pre" reponses_tout_3 session_vide "2025-01-01T10:00:00"
      scores_tout_3 = Ok save_data
    ∧ ∃ pct,
        score_pourcentage scores_tout_3 = Ok pct
        ∧ save_data
          = [ ("timestamp", CVal (PStr "2025-01-01T10:00:00"));
              ("type_questionnaire", CVal (PStr "pre"));
              ("email", CVal (default (PStr "") (session_vide !! "email")));
              ("age", CVal (default (PStr "") (session_vide !! "age")));
              ("genre", CVal (default (PStr "") (session_vide !! "genre")));
              ("score_total", CVal (PInt (score_total scores_tout_3)));
              ("score_max", CVal (PInt (score_max scores_tout_3)));
              ("score_partie_a", CVal (PInt (score_partie_a scores_tout_3)));
              ("score_partie_b", CVal (PInt (score_partie_b scores_tout_3)));
              ("items_positifs_a", CVal (PInt (items_positifs_a scores_tout_3)));
              ("items_positifs_b", CVal (PInt (items_positifs_b scores_tout_3)));
              ("screening_positif", CBool (screening_positif scores_tout_3));
              ("score_pourcentage", CFloat pct) ]
            ++ (prod_map id CVal <$> reponses_tout_3)
        ∧ NoDup (odict_keys save_data)
        ∧ length save_data
          = (49 + (if bool_decide ("pre" = "post")
                      || bool_decide ("pre" = "retrospectif")
                   then 2 else 0)
                + (if bool_decide ("pre" = "retrospectif") then 1 else 0))%nat.
Proof.
  eexists. split; [reflexivity|].
  apply (save_data_de_contenu config_complete "pre" saisie_tout_3
           reponses_tout_3 session_vide "2025-01-01T10:00:00" scores_tout_3).
  - reflexivity.
  - reflexivity.
Defined.

(** X11. The columns of a record depend on the questionnaire type alone:
    two submissions of the same type, whatever the configuration, the
    answers, the session, the time and the scores, give records with the
    same keys in the same order. So every row appended to the worksheet of a
    type lines up with the header row that was written from the first
    record. *)
Theorem colonnes_par_type questionnaire_type cfg1 cfg2 s1 s2 r1 r2 ss1 ss2
    now1 now2 sc1 sc2 sd1 sd2 :
  collecter_responses cfg1 questionnaire_type s1 = Ok r1 →
  collecter_responses cfg2 questionnaire_type s2 = Ok r2 →
  save_data_de questionnaire_type r1 ss1 now1 sc1 = Ok sd1 →
  save_data_de questionnaire_type r2 ss2 now2 sc2 = Ok sd2 →
  odict_keys sd1 = odict_keys sd2
  ∧ length (odict_values sd1) = length (odict_values sd2)
  ∧ take 13 (odict_keys sd1)
    = ["timestamp"; "type_questionnaire"; "email"; "age"; "genre";
       "score_total"; "score_max"; "score_partie_a"; "score_partie_b";
       "items_positifs_a"; "items_positifs_b"; "screening_positif";
       "score_pourcentage"]
  ∧ take 36 (drop 13 (odict_keys sd1))
    = flat_map (λ n, [Q n; Q n +:+ "_text"]) (seq 1 18).
Proof.
  intros Hc1 Hc2 Hsd1 Hsd2.
  destruct (save_data_de_detail _ _ _ _ _ _ _ _ Hc1 Hsd1) as (p1 & _ & -> & _).
  destruct (save_data_de_detail _ _ _ _ _ _ _ _ Hc2 Hsd2) as (p2 & _ & -> & _).
  pose proof (collecter_responses_Ok_longueur _ _ _ _ Hc1) as Hl1.
  pose proof (collecter_responses_Ok_longueur _ _ _ _ Hc2) as Hl2.
  rewrite (collecter_responses_detail _ _ _ _ Hc1).
  rewrite (collecter_responses_detail _ _ _ _ Hc2).
  revert Hl1 Hl2. generalize (questions_de cfg1 questionnaire_type).
  generalize (questions_de cfg2 questionnaire_type). intros qs2 qs1 Hl1 Hl2.
  do 18 (destruct qs1 as [|? qs1]; [simpl in Hl1; lia|]).
  do 18 (destruct qs2 as [|? qs2]; [simpl in Hl2; lia|]).
  clear.
  destruct (decide (questionnaire_type = "retrospectif")) as [->|Hretro];
    [|destruct (decide (questionnaire_type = "post")) as [->|Hpost]].
  - repeat split; reflexivity.
  - repeat split; reflexivity.
  - rewrite !bool_decide_eq_false_2 by done. cbn [orb].
    repeat split; reflexivity.
Qed.

Lemma colonnes_par_type_witness :
  ∃ r2 sd1 sd2,
    collecter_responses config_complete "post" saisie_tout_0 = Ok r2
    ∧ save_data_de "post" r2 session_vide "2025-01-01T10:00:00"
        scores_tout_3 = Ok sd1
    ∧ save_data_de "post" r2 {[ "age" := PInt 30 ]} "2025-02-02T12:00:00"
        scores_tout_3 = Ok sd2
    ∧ odict_keys sd1 = odict_keys sd2
    ∧ length (odict_values sd1) = length (odict_values sd2)
    ∧ take 13 (odict_keys sd1)
      = ["timestamp"; "type_questionnaire"; "email"; "age"; "genre";
         "score_total"; "score_max"; "score_partie_a"; "score_partie_b";
         "items_positifs_a"; "items_positifs_b"; "screening_positif";
         "score_pourcentage"]
    ∧ take 36 (drop 13 (odict_keys sd1))
      = flat_map (λ n, [Q n; Q n +:+ "_text"]) (seq 1 18).
Proof.
  eexists _, _, _. split; [reflexivity|]. split; [reflexivity|].
  split; [reflexivity|].
  eapply (colonnes_par_type "post" config_complete config_complete
            saisie_tout_0 saisie_tout_0 _ _ session_vide
            {[ "age" := PInt 30 ]} "2025-01-01T10:00:00" "2025-02-02T12:00:00"
            scores_tout_3 scores_tout_3); reflexivity.
Defined.

(** ** The connection and the save *)

Section persistance_proprietes.
Context `{Tableur}.

(** X12. [connect_to_gsheet] never raises. It returns a spreadsheet only
    when the secrets hold credentials and a non-empty URL, and then shows
    nothing; in every other case, an exception of the service included, it
    returns [None] after exactly one warning. Without readable secrets or
    without credentials the service is not called at all. *)
Theorem connect_to_gsheet_issue st_secrets w :
  ∃ w' o,
    connect_to_gsheet st_secrets w = (w', Ok o)
    ∧ match o with
      | Some _ =>
          ecran w' = ecran w
          ∧ ∃ credentials url,
              st_secrets = Ok {| gsheet_credentials := Some credentials;
                                 gsheet_url := Some url |}
              ∧ url ≠ ""
      | None => ∃ m, ecran w' = ecran w ++ [st_warning m]
      end
    ∧ ((∀ credentials url,
          st_secrets ≠ Ok {| gsheet_credentials := Some credentials;
                             gsheet_url := url |}) →
       distant w' = distant w).
Proof.
  unfold connect_to_gsheet, try_except, prog_bind, lift, appel, afficher, prog_ret.
  destruct st_secrets as [[[c|] url]|e]; cbn.
  - destruct (authorize c (distant w)) as [n [cl|e]]; cbn.
    + case_bool_decide as Hu; cbn.
      * destruct (open_by_url cl _ n) as [n' [sp|e]]; cbn.
        -- eexists _, _. split; [reflexivity|]. cbn. split.
           ++ split; [done|]. destruct url as [u|]; [|done].
              exists c, u. done.
           ++ intros Hn. by destruct (Hn c url).
        -- eexists _, _. split; [reflexivity|]. cbn.
           split; [by eexists|]. intros Hn. by destruct (Hn c url).
      * eexists _, _. split; [reflexivity|]. cbn.
        split; [by eexists|]. intros Hn. by destruct (Hn c url).
    + eexists _, _. split; [reflexivity|]. cbn.
      split; [by eexists|]. intros Hn. by destruct (Hn c url).
  - eexists _, _. split; [reflexivity|]. cbn. split; [by eexists|done].
  - eexists _, _. split; [reflexivity|]. cbn. split; [by eexists|done].
Qed.

End persistance_proprietes.

(** ** The submission: what a run leaves behind *)

Lemma collecter_responses_leve cfg questionnaire_type s e :
  collecter_responses cfg questionnaire_type s = Raise e → e = IndexError.
Proof.
  intros Hc.
  destruct (decide (18 ≤ length (questions_de cfg questionnaire_type))%nat)
    as [Hl|Hl].
  - unfold collecter_responses in Hc.
    destruct (for_each_boucle_question_Ok
                (questions_de cfg questionnaire_type) s (range 0 6) [])
      as [r1 H1].
    { apply Forall_forall. intros i Hi%elem_of_seq. lia. }
    rewrite H1 in Hc. cbn [mbind result_bind] in Hc.
    destruct (for_each_boucle_question_Ok
                (questions_de cfg questionnaire_type) s (range 6 18) r1)
      as [r2 H2].
    { apply Forall_forall. intros i Hi%elem_of_seq. simpl in Hi. lia. }
    rewrite H2 in Hc. cbn [mbind result_bind] in Hc. by destruct (_ || _).
  - rewrite collecter_responses_courte in Hc by lia. by injection Hc.
Qed.

Section soumission_effets.
Context `{Tableur}.


(** X15. Every submission that completes ends its page with the message
    that the answers were saved, after the results; this does not depend on
    the outcome of the attempt to save, which may be [None] (no
    spreadsheet) or [Some false] (the write failed). *)
Theorem soumettre_message_final cfg questionnaire_type responses session_state
    now st_secrets w w' :
  soumettre cfg questionnaire_type responses session_state now st_secrets w
  = (w', Ok ()) →
  last (ecran w')
  = Some (st_info [Lit "💾 Vos réponses ont été enregistrées. Merci de votre participation !"])
  ∧ ∃ sc save_data w1 issue,
      calculer_score_asrs (contenu responses) cfg = Ok sc
      ∧ save_data_de questionnaire_type responses session_state now sc
        = Ok save_data
      ∧ tenter_sauvegarde st_secrets questionnaire_type save_data w
        = (w1, Ok issue)
      ∧ ecran w' = ecran w1 ++ resultats responses sc save_data
      ∧ distant w' = distant w1.
Proof.
  unfold soumettre, prog_bind, lift, prog_ret.
  destruct (calculer_score_asrs (contenu responses) cfg) as [sc|] eqn:Hsc;
    [|done].
  destruct (save_data_de questionnaire_type responses session_state now sc)
    as [sd|] eqn:Hsd; [|done].
  destruct (tenter_sauvegarde_spec st_secrets questionnaire_type sd w)
    as (w1 & issue & msgs & Ht & _). rewrite Ht.
  unfold afficher. intros [= <-]. cbn [ecran distant]. split.
  - unfold resultats. rewrite !last_app. reflexivity.
  - by exists sc, sd, w1, issue.
Qed.
End soumission_effets.


Lemma soumettre_message_final_witness :
  ∃ w',
    @soumettre tableur_lecture_seule config_complete "pre" reponses_tout_3
      session_vide "2025-01-01T10:00:00" secrets_complets monde_lecture_seule
    = (w', Ok ())
    ∧ last (ecran w')
      = Some (st_info [Lit "💾 Vos réponses ont été enregistrées. Merci de votre participation !"])
    ∧ ∃ sc save_data w1 issue,
        calculer_score_asrs (contenu reponses_tout_3) config_complete = Ok sc
        ∧ save_data_de "pre" reponses_tout_3 session_vide
            "2025-01-01T10:00:00" sc = Ok save_data
        ∧ @tenter_sauvegarde tableur_lecture_seule secrets_complets "pre"
            save_data monde_lecture_seule = (w1, Ok issue)
        ∧ ecran w' = ecran w1 ++ resultats reponses_tout_3 sc save_data
        ∧ distant w' = distant w1.
Proof.
  eexists. split; [reflexivity|].
  apply (@soumettre_message_final tableur_lecture_seule config_complete "pre"
           reponses_tout_3 session_vide "2025-01-01T10:00:00" secrets_complets
           monde_lecture_seule).
  reflexivity.
Defined.

(** On the service that refuses every write: the error, the warning, and
    still the closing message. *)
Example message_final_apres_echec :
  let w' := (@soumettre tableur_lecture_seule config_complete "pre"
               reponses_tout_3 session_vide "2025-01-01T10:00:00"
               secrets_complets monde_lecture_seule).1 in
  take 2 (ecran w')
  = [st_error [Lit "❌ Erreur lors de la sauvegarde: "; StrExn (Exception "403")];
     st_warning [Lit "⚠️ Erreur d'enregistrement, mais vos réponses sont affichées ci-dessous"]]
  ∧ last (ecran w')
    = Some (st_info [Lit "💾 Vos réponses ont été enregistrées. Merci de votre participation !"]).
Proof. split; reflexivity. Qed.

(** ** The consent form and [main] *)

Lemma session_eta ss : {| consented := consented ss; champs := champs ss |} = ss.
Proof. by destruct ss. Qed.

Section application_proprietes.
Context `{Tableur}.

Lemma show_questionnaire_leve_monde cfg questionnaire_type s session_state now
    st_secrets w w' e :
  show_questionnaire cfg questionnaire_type s session_state now st_secrets w
  = (w', Raise e) →
  w' = w.
Proof.
  unfold show_questionnaire, prog_bind, lift, prog_ret.
  destruct (collecter_responses cfg questionnaire_type s) as [responses|e0];
    [|by intros [= <- _]].
  destruct (submitted s); [|done].
  unfold soumettre, prog_bind, lift, prog_ret.
  destruct (calculer_score_asrs (contenu responses) cfg) as [sc|e1];
    [|by intros [= <- _]].
  destruct (save_data_de questionnaire_type responses session_state now sc)
    as [sd|e2]; [|by intros [= <- _]].
  destruct (tenter_sauvegarde_spec st_secrets questionnaire_type sd w)
    as (w1 & issue & msgs & Ht & _). rewrite Ht. done.
Qed.

Lemma show_consent_form_cas app c now ss w :
  ∃ msgs,
    (show_consent_form app c now ss w).1.2
    = {| ecran := ecran w ++ msgs; distant := distant w |}
    ∧ Forall (λ u, ∃ m, u = st_markdown m ∨ u = st_error m ∨ u = st_success m) msgs.
Proof.
  unfold show_consent_form, afficher. cbn.
  destruct (consent_submitted c); [destruct (checkbox_consent c)|]; cbn;
    rewrite <- ?app_assoc; eexists; (split; [reflexivity|]);
    repeat constructor; eexists; eauto.
Qed.

Lemma main_sans_accord e ss w app :
  consented ss ≠ Some true →
  config_json e = Lu app →
  main e ss w
  = show_consent_form app (widgets_consentement e) (maintenant e)
      {| consented := Some false; champs := champs ss |} w.
Proof.
  intros Hc Hl. unfold main, load_config, prog_ret. rewrite Hl.
  destruct ss as [[[]|] ch]; [done|..]; cbn -[show_questionnaire];
    by rewrite orb_true_r.
Qed.

(** X16. Until the consent is given, a run of [main] shows the consent form
    whatever the side bar, the widgets of the questionnaire and the secrets
    hold: no questionnaire is processed, nothing but the text of the form
    and its message is put on the page and the spreadsheet service is not
    called. The run gives the consent exactly when the configuration was
    read and the form was submitted with the box ticked. *)
Theorem main_sans_consentement e ss w :
  consented ss ≠ Some true →
  ∃ ss' w' f msgs,
    main e ss w = (ss', w', f)
    ∧ distant w' = distant w
    ∧ ecran w' = ecran w ++ msgs
    ∧ Forall (λ u, ∃ m, u = st_markdown m ∨ u = st_error m ∨ u = st_success m)
        msgs
    ∧ (consented ss' = Some true
       ↔ (∃ app, config_json e = Lu app)
         ∧ consent_submitted (widgets_consentement e) = true
         ∧ checkbox_consent (widgets_consentement e) = true)
    ∧ (∀ e2, config_json e2 = config_json e →
         widgets_consentement e2 = widgets_consentement e →
         maintenant e2 = maintenant e →
         main e2 ss w = main e ss w).
Proof.
  intros Hc. destruct (config_json e) as [|ex|app] eqn:Hl.
  - exists ss, {| ecran := ecran w ++ [st_error [Lit "❌ Fichier config.json introuvable !"]];
                 distant := distant w |}, Stop, [st_error [Lit "❌ Fichier config.json introuvable !"]].
    split; [by unfold main; rewrite Hl|]. split; [done|]. split; [done|].
    split; [repeat constructor; eexists; eauto|]. split.
    + split; [done|]. by intros [[app [=]] _].
    + intros e2 H2 _ _. unfold main. by rewrite H2, Hl.
  - exists ss, w, (Leve ex), [].
    split; [by unfold main; rewrite Hl|]. split; [done|].
    split; [by rewrite app_nil_r|]. split; [constructor|]. split.
    + split; [done|]. by intros [[app [=]] _].
    + intros e2 H2 _ _. unfold main. by rewrite H2, Hl.
  - rewrite (main_sans_accord e ss w app Hc Hl).
    destruct (show_consent_form_cas app (widgets_consentement e) (maintenant e)
                {| consented := Some false; champs := champs ss |} w)
      as (msgs & Hw & Hm).
    destruct (show_consent_form _ _ _ _ _) as [[ss' w'] f] eqn:Hs.
    cbn in Hw. subst w'. eexists ss', _, f, msgs.
    split; [done|]. split; [done|]. split; [done|]. split; [done|]. split.
    + unfold show_consent_form in Hs.
      destruct (consent_submitted _), (checkbox_consent _); cbn in Hs;
        injection Hs as <- _; cbn; split; try done;
        try (by intros (_ & ? & ?)); intros _; eauto.
    + intros e2 H2 Hw2 Hn2.
      rewrite (main_sans_accord e2 ss w app Hc) by congruence.
      by rewrite Hw2, Hn2.
Qed.


Lemma champs_consentement (ch : gmap string pyval) email age genre date :
  (ch = ∅ ∨ ∃ email0 age0 genre0 date0,
      ch = <["consent_date" := PStr date0]>
             (<["genre" := PStr genre0]>
                (<["age" := PInt age0]> {["email" := PStr email0]}))) →
  <["consent_date" := PStr date]>
    (<["genre" := PStr genre]>
       (<["age" := PInt age]> (<["email" := PStr email]> ch)))
  = <["consent_date" := PStr date]>
      (<["genre" := PStr genre]>
         (<["age" := PInt age]> {["email" := PStr email]})).
Proof.
  intros [->|(email0 & age0 & genre0 & date0 & ->)].
  - by rewrite insert_empty.
  - apply map_eq. intros k.
    destruct (decide (k = "consent_date")) as [->|]; [by simplify_map_eq|].
    destruct (decide (k = "genre")) as [->|]; [by simplify_map_eq|].
    destruct (decide (k = "age")) as [->|]; [by simplify_map_eq|].
    destruct (decide (k = "email")) as [->|]; by simplify_map_eq.
Qed.

Lemma main_session_saine e ss w :
  session_saine ss →
  5 ≤ number_age (widgets_consentement e) ≤ 100 →
  session_saine (main e ss w).1.1.
Proof.
  intros Hs Ha. unfold main, load_config, prog_bind, prog_ret, lift, afficher.
  destruct (config_json e) as [|ex|app]; cbn -[show_questionnaire]; [done..|].
  assert (∀ c ch,
            session_saine {| consented := Some c; champs := ch |} →
            session_saine
              (show_consent_form app (widgets_consentement e) (maintenant e)
                 {| consented := Some c; champs := ch |} w).1.1) as Hform.
  { intros c ch Hc. unfold show_consent_form.
    destruct (consent_submitted (widgets_consentement e)),
      (checkbox_consent (widgets_consentement e)); cbn; try done.
    unfold session_saine. cbn.
    eexists _, _, _, _. split; [|exact Ha]. apply champs_consentement.
    unfold session_saine in Hc. cbn in Hc.
    destruct c; [right|by left].
    destruct Hc as (email0 & age0 & genre0 & date0 & -> & _).
    by eexists _, _, _, _. }
  destruct ss as [[[]|] ch]; cbn -[show_questionnaire].
  - rewrite orb_false_r. repeat case_bool_decide; try done;
      [by apply Hform
      |by destruct (show_questionnaire _ _ _ _ _ _ _) as [w' [[]|ex]]..].
  - rewrite orb_true_r. by apply Hform.
  - rewrite orb_true_r. by apply Hform.
Qed.

Lemma accessible_saine ss : accessible ss → session_saine ss.
Proof.
  induction 1 as [|e ss w _ IH Ha]; [done|]. by apply main_session_saine.
Qed.

(** X18. Every session that runs of [main] reach from the empty session
    holds nothing as long as the consent is not given and, once it is,
    exactly the e-mail, the age, the gender and the date of the consent that
    the form wrote last, the age being the number of the widget, between 5
    and 100. *)
Theorem session_accessible ss :
  accessible ss →
  match consented ss with
  | Some true =>
      ∃ email age genre date,
        champs ss
        = <["consent_date" := PStr date]>
            (<["genre" := PStr genre]>
               (<["age" := PInt age]> {["email" := PStr email]}))
        ∧ 5 ≤ age ≤ 100
  | _ => champs ss = ∅
  end.
Proof. apply accessible_saine. Qed.

(** X19. The record of a submission made from a reachable session carries
    the e-mail, the age (an integer between 5 and 100) and the gender given
    with the consent, never the default empty string; the date of the
    consent, which the session holds, is not part of the record. *)
Theorem enregistrement_session cfg questionnaire_type s responses ss now sc
    save_data :
  accessible ss →
  consented ss = Some true →
  collecter_responses cfg questionnaire_type s = Ok responses →
  save_data_de questionnaire_type responses (champs ss) now sc = Ok save_data →
  ∃ email age genre,
    champs ss !! "email" = Some (PStr email)
    ∧ champs ss !! "age" = Some (PInt age)
    ∧ champs ss !! "genre" = Some (PStr genre)
    ∧ is_Some (champs ss !! "consent_date")
    ∧ contenu save_data !! "email" = Some (CVal (PStr email))
    ∧ contenu save_data !! "age" = Some (CVal (PInt age))
    ∧ 5 ≤ age ≤ 100
    ∧ contenu save_data !! "genre" = Some (CVal (PStr genre))
    ∧ contenu save_data !! "consent_date" = None.
Proof.
  intros Hacc Hc Hr Hsd. apply accessible_saine in Hacc.
  unfold session_saine in Hacc. rewrite Hc in Hacc.
  destruct Hacc as (email & age & genre & date & Hch & Ha).
  exists email, age, genre.
  assert (∀ k, (∀ k', k ≠ "Q" +:+ k') → k ≠ "satisfaction" →
               k ≠ "amelioration_percue" → k ≠ "commentaires" →
               contenu responses !! k = None) as Habs.
  { intros k. apply (collecter_responses_absent _ _ _ _ k Hr). }
  rewrite Hch in Hsd. rewrite Hch.
  split; [reflexivity|]. split; [reflexivity|]. split; [reflexivity|].
  split; [by eexists|].
  split; [|split; [|split; [done|split]]].
  - destruct (save_data_de_champ _ _ _ _ _ _ "email" Hsd) as (pct & _ & ->);
      [apply Habs; [intros k'|..]; discriminate|reflexivity].
  - destruct (save_data_de_champ _ _ _ _ _ _ "age" Hsd) as (pct & _ & ->);
      [apply Habs; [intros k'|..]; discriminate|reflexivity].
  - destruct (save_data_de_champ _ _ _ _ _ _ "genre" Hsd) as (pct & _ & ->);
      [apply Habs; [intros k'|..]; discriminate|reflexivity].
  - destruct (save_data_de_champ _ _ _ _ _ _ "consent_date" Hsd)
      as (pct & _ & ->);
      [apply Habs; [intros k'|..]; discriminate|reflexivity].
Qed.

End application_proprietes.

Lemma main_sans_consentement_witness :
  ∃ ss' w' f msgs,
    @main tableur_memoire entree_questionnaire session_initiale monde_memoire
    = (ss', w', f)
    ∧ distant w' = distant monde_memoire
    ∧ ecran w' = ecran monde_memoire ++ msgs
    ∧ Forall (λ u, ∃ m, u = st_markdown m ∨ u = st_error m ∨ u = st_success m)
        msgs
    ∧ (consented ss' = Some true
       ↔ (∃ app, config_json entree_questionnaire = Lu app)
         ∧ consent_submitted (widgets_consentement entree_questionnaire) = true
         ∧ checkbox_consent (widgets_consentement entree_questionnaire) = true)
    ∧ (∀ e2, config_json e2 = config_json entree_questionnaire →
         widgets_consentement e2 = widgets_consentement entree_questionnaire →
         maintenant e2 = maintenant entree_questionnaire →
         main e2 session_initiale monde_memoire
         = main entree_questionnaire session_initiale monde_memoire).
Proof.
  apply (@main_sans_consentement tableur_memoire entree_questionnaire
           session_initiale monde_memoire).
  simpl. discriminate.
Defined.


Lemma session_accessible_witness :
  @accessible tableur_memoire session_consentie
  ∧ ∃ email age genre date,
      champs session_consentie
      = <["consent_date" := PStr date]>
          (<["genre" := PStr genre]>
             (<["age" := PInt age]> {["email" := PStr email]}))
      ∧ 5 ≤ age ≤ 100.
Proof.
  assert (@accessible tableur_memoire session_consentie) as Hacc.
  { apply (@accessible_main tableur_memoire entree_consentement
             session_initiale monde_memoire).
    - apply accessible_debut.
    - simpl. lia. }
  split; [exact Hacc|].
  exact (@session_accessible tableur_memoire session_consentie Hacc).
Defined.

Lemma enregistrement_session_witness :
  ∃ save_data,
    save_data_de "pre" reponses_tout_3 (champs session_consentie)
      "2025-01-02T10:00:00" scores_tout_3 = Ok save_data
    ∧ ∃ email age genre,
        champs session_consentie !! "email" = Some (PStr email)
        ∧ champs session_consentie !! "age" = Some (PInt age)
        ∧ champs session_consentie !! "genre" = Some (PStr genre)
        ∧ is_Some (champs session_consentie !! "consent_date")
        ∧ contenu save_data !! "email" = Some (CVal (PStr email))
        ∧ contenu save_data !! "age" = Some (CVal (PInt age))
        ∧ 5 ≤ age ≤ 100
        ∧ contenu save_data !! "genre" = Some (CVal (PStr genre))
        ∧ contenu save_data !! "consent_date" = None.
Proof.
  eexists. split; [reflexivity|].
  apply (@enregistrement_session tableur_memoire config_complete "pre"
           saisie_tout_3 reponses_tout_3 session_consentie
           "2025-01-02T10:00:00" scores_tout_3).
  - apply (@accessible_main tableur_memoire entree_consentement
             session_initiale monde_memoire).
    + apply accessible_debut.
    + simpl. lia.
  - reflexivity.
  - reflexivity.
  - reflexivity.
Defined.
